(** * Shallow embedding of sherpa/bin/lstm_transducer_stateless/stream.py

    The LSTM states handled by [stack_states] and [unstack_states] are
    torch tensors of rank 3, laid out [(num_layers, batch, dim)]; the
    per-frame features are rank-2 tensors of shape [(1, feature_dim)].
    Tensors are modelled by their size vector and their nested element
    lists; the element type is left abstract. *)

From Stdlib Require Import Strings.String.
From Stdlib Require Import Arith Lia Bool ZArith QArith List Sorted.
Import ListNotations.
Local Open Scope nat_scope.

(** ** Errors raised along the modelled paths *)

(** [ConfigError]: the extractor's [accept_waveform] rejects a sampling
    rate different from its own (docstring of [Stream.accept_waveform]).
    [ShapeError]: [torch.cat] rejects tensors whose sizes differ outside
    the concatenation dimension.  [EmptyCat]: [torch.cat] of an empty list. *)
Inductive exn : Type :=
| ConfigError
| ShapeError
| EmptyCat.

Inductive result (A : Type) : Type :=
| Ok : A -> result A
| Err : exn -> result A.
Arguments Ok {A} _.
Arguments Err {A} _.

Definition rbind {A B : Type} (r : result A) (f : A -> result B) : result B :=
  match r with Ok a => f a | Err e => Err e end.

Definition rmap {A B : Type} (f : A -> B) (r : result A) : result B :=
  rbind r (fun a => Ok (f a)).

Notation "'let!' x := r 'in' k" := (rbind r (fun x => k))
  (at level 200, x name, r at level 100, k at level 200).

(** ** Tensors *)

(** A rank-2 tensor of sizes [(r0, r1)]. *)
Record T2 (A : Type) : Type := mkT2 { r0 : nat; r1 : nat; e2 : list (list A) }.

(** A rank-3 tensor of sizes [(d0, d1, d2)]; element [t[i, j, k]] is
    [nth k (nth j (nth i (e3 t) []) []) _]. *)
Record T3 (A : Type) : Type := mkT3 { d0 : nat; d1 : nat; d2 : nat; e3 : list (list (list A)) }.
Arguments mkT2 {A} _ _ _.
Arguments mkT3 {A} _ _ _ _.
Arguments r0 {A} _.
Arguments r1 {A} _.
Arguments e2 {A} _.
Arguments d0 {A} _.
Arguments d1 {A} _.
Arguments d2 {A} _.
Arguments e3 {A} _.

(** The element lists really have the sizes the tensor declares. *)
Definition wf3 {A : Type} (t : T3 A) : Prop :=
  length (e3 t) = d0 t /\
  Forall (fun m => length m = d1 t /\ Forall (fun r => length r = d2 t) m) (e3 t).

Fixpoint zip_with {X Y W : Type} (f : X -> Y -> W) (l : list X) (l' : list Y)
  : list W :=
  match l, l' with
  | x :: l, y :: l' => f x y :: zip_with f l l'
  | _, _ => []
  end.

(** [t.unbind(dim=1)]: the [d1 t] slices [t[:, j, :]]. *)
Definition unbind1 {A : Type} (t : T3 A) : list (T2 A) :=
  map (fun j => mkT2 (d0 t) (d2 t) (map (fun m => nth j m []) (e3 t)))
      (seq 0 (d1 t)).

(** [u.unsqueeze(1)]: sizes [(r0, r1)] become [(r0, 1, r1)]. *)
Definition unsqueeze1 {A : Type} (u : T2 A) : T3 A :=
  mkT3 (r0 u) 1 (r1 u) (map (fun r => [r]) (e2 u)).

(** [t[:, j:j+1, :]]: batch position [j] of [t], keeping the batch axis. *)
Definition narrow1 {A : Type} (t : T3 A) (j : nat) : T3 A :=
  mkT3 (d0 t) 1 (d2 t) (map (fun m => [nth j m []]) (e3 t)).

(** The elements of [torch.cat(ts, dim=1)] once the sizes are checked:
    row [i] is the concatenation, in list order, of the rows [i] of [ts]. *)
Definition cat1_data {A : Type} (n0 : nat) (ts : list (T3 A)) : list (list (list A)) :=
  fold_right (fun u acc => zip_with (@app (list A)) (e3 u) acc) (repeat [] n0) ts.

(** [torch.cat(ts, dim=1)]: a non-empty list whose sizes agree in
    dimensions 0 and 2. *)
Definition cat1 {A : Type} (ts : list (T3 A)) : result (T3 A) :=
  match ts with
  | [] => Err EmptyCat
  | t :: _ =>
      if forallb (fun u => Nat.eqb (d0 u) (d0 t) && Nat.eqb (d2 u) (d2 t)) ts
      then Ok (mkT3 (d0 t) (list_sum (map d1 ts)) (d2 t) (cat1_data (d0 t) ts))
      else Err ShapeError
  end.

(** ** Batch codec (lines 26-83) *)

Definition state (A : Type) : Type := (T3 A * T3 A)%type.

(** [unstack_states]: unbind both components along the batch axis, pair
    them with Python's [zip] (which stops at the shorter one) and give each
    slice its batch axis of size 1 back. *)
Definition unstack_states {A : Type} (states : state A) : list (state A) :=
  let '(hidden_states, cell_states) := states in
  let list_hidden_states := unbind1 hidden_states in
  let list_cell_states := unbind1 cell_states in
  map (fun '(h, c) => (unsqueeze1 h, unsqueeze1 c))
      (combine list_hidden_states list_cell_states).

(** [stack_states]: concatenate the hidden, then the cell components
    along the batch axis. *)
Definition stack_states {A : Type} (states_list : list (state A)) : result (state A) :=
  let! hidden_states := cat1 (map fst states_list) in
  let! cell_states := cat1 (map snd states_list) in
  Ok (hidden_states, cell_states).

(** ** A toy extractor and endpoint rule

    Used to run the model on concrete inputs: the extractor's state is the
    list of samples received, one single-value frame per sample; the rule
    detects an endpoint once the trailing silence reaches a threshold. *)

Definition toy_fbank_accept (x w : list Z) : list Z := x ++ w.
Definition toy_fbank_input_finished (x : list Z) : list Z := x.
Definition toy_fbank_get_frame (x : list Z) (i : nat) : T2 Z :=
  mkT2 1 1 [[nth i x 0%Z]].
Definition toy_endpoint_detected (min_trailing_silence : nat)
    (num_frames_decoded trailing_silence_frames : nat) (frame_shift : Q) : bool :=
  min_trailing_silence <=? trailing_silence_frames.

(** ** The streaming client (pruned_stateless_emformer_rnnt2/streaming_client.py) *)

Module Client.

(** [run], lines 97-107: the samples of one file are sent in slices of
    [frame_size] samples, [wave[start:end]] with
    [end = start + min(frame_size, numel - start)].  Each iteration moves
    [start] forward by [frame_size], so [fuel >= numel] iterations are
    never exhausted before the [while] condition fails. *)
Definition frame_size : nat := 4096.

Definition py_slice {A : Type} (l : list A) (start end_ : nat) : list A :=
  firstn (end_ - start) (skipn start l).

Fixpoint send_loop {A : Type} (fuel : nat) (start : nat) (wave : list A)
  : list (list A) :=
  match fuel with
  | O => []
  | S fuel' =>
      if start <? length wave then
        let end_ := start + Nat.min frame_size (length wave - start) in
        py_slice wave start end_ :: send_loop fuel' (start + frame_size) wave
      else []
  end.

(** The audio messages [websocket.send(d)] of one file, in order; the
    sentinel [b"Done"] follows them (line 109). *)
Definition wave_chunks {A : Type} (wave : list A) : list (list A) :=
  send_loop (length wave) 0 wave.

(** How the connection ends once its messages are exhausted.  The async
    iterator of a websockets connection ends quietly on a normal close
    (codes 1000 and 1001, [ConnectionClosedOK]) and raises
    [ConnectionClosedError] on any other close. *)
Inductive close_kind : Type :=
| ClosedOK
| ClosedError.

(** What the coroutine [receive_results] does: return a string, or let
    [ConnectionClosedError] escape the [async for]. *)
Inductive receive_outcome : Type :=
| Returned (partial_result : String.string)
| RaisesConnectionClosedError.

(** [receive_results], lines 72-82: the incoming text messages, in
    order, then the way the connection closes; the loop stops at ["Done"]
    or when the iteration over the socket ends. *)
Fixpoint receive_loop (partial_result : String.string) (messages : list String.string)
  (close : close_kind) : receive_outcome :=
  match messages with
  | [] =>
      match close with
      | ClosedOK => Returned partial_result
      | ClosedError => RaisesConnectionClosedError
      end
  | message :: rest =>
      if String.eqb message "Done"%string then Returned partial_result
      else receive_loop message rest close
  end.

Definition receive_results (messages : list String.string) (close : close_kind)
  : receive_outcome :=
  receive_loop ""%string messages close.

(** Exceptions that reach the [try] of [main]:
    [websockets.exceptions.InvalidStatusCode] with its [status_code],
    the [KeyError] of [http.client.responses[e.status_code]] and any
    other exception. *)
Inductive client_exn : Type :=
| InvalidStatusCode (status_code : nat)
| KeyError
| OtherError.

Definition max_retry_count : nat := 5.
Definition SERVICE_UNAVAILABLE : nat := 503.

Section Retry.

(** Whether [http.client.responses] has an entry for a status code. *)
Variable http_responses_known : nat -> bool.

(** [main], lines 121-137.  [outcome k] is how the [k]-th call of [run]
    (from 0) ends: [None] when it returns, [Some e] when it raises [e].
    The result is the exception [main] raises, if any, and the number of
    calls to [run] made.  At most [max_retry_count] iterations run, so that
    much fuel suffices. *)
Fixpoint retry_loop (fuel count : nat) (outcome : nat -> option client_exn)
  : option client_exn * nat :=
  match fuel with
  | O => (None, count)
  | S fuel' =>
      if count <? max_retry_count then
        let count := count + 1 in
        match outcome (count - 1) with
        | None => (None, count)
        | Some (InvalidStatusCode status_code) =>
            if negb (http_responses_known status_code) then (Some KeyError, count)
            else if negb (Nat.eqb status_code SERVICE_UNAVAILABLE)
            then (Some (InvalidStatusCode status_code), count)
            else retry_loop fuel' count outcome
        | Some e => (Some e, count)
        end
      else (None, count)
  end.

Definition main_loop (outcome : nat -> option client_exn) : option client_exn * nat :=
  retry_loop max_retry_count 0 outcome.

End Retry.

End Client.

(** ** The stream (lines 86-238) *)

Section StreamModel.

(** Element type of the float32 tensors, and the audio chunk type. *)
Variable Scalar : Type.
Variable Waveform : Type.

(** The kaldifeat [OnlineFbank] extractor is external: its internal state
    and its operations are left abstract.  [fbank_accept] is its
    [accept_waveform] once the sampling rate has been accepted. *)
Variable X : Type.
Variable fbank_new : X.
Variable fbank_accept : X -> Waveform -> X.
Variable fbank_input_finished : X -> X.
Variable fbank_num_frames_ready : X -> nat.
Variable fbank_get_frame : X -> nat -> T2 Scalar.

(** [math.log(1e-10)]. *)
Variable log_1e_10 : Scalar.

(** [sherpa.OnlineEndpointConfig] and [sherpa.endpoint_detected] are
    external; arguments in the order [config], [num_frames_decoded],
    [trailing_silence_frames], [frame_shift_in_seconds]. *)
Variable OnlineEndpointConfig : Type.
Variable sherpa_endpoint_detected : OnlineEndpointConfig -> nat -> nat -> Q -> bool.

Record FrameOptions : Type := mkFrameOptions {
  dither : Q;
  snip_edges : bool;
  samp_freq : Q;
  frame_shift_ms : Q;
  max_feature_vectors : Z
}.

Record MelOptions : Type := mkMelOptions { num_bins : nat }.

Record FbankOptions : Type := mkFbankOptions {
  frame_opts : FrameOptions;
  mel_opts : MelOptions
}.

Record OnlineFbank : Type := mkOnlineFbank {
  opts : FbankOptions;
  fbank : X
}.

(** [_create_streaming_feature_extractor]: kaldi's defaults
    ([frame_shift_ms = 10]) with the options set at lines 97-103. *)
Definition _create_streaming_feature_extractor : OnlineFbank :=
  mkOnlineFbank
    (mkFbankOptions
       (mkFrameOptions 0 false 16000 10 (-1))
       (mkMelOptions 80))
    fbank_new.

(** The extractor's [accept_waveform]: it refuses a sampling rate that is
    not its own (no resampling), otherwise consumes the samples. *)
Definition fe_accept_waveform (fe : OnlineFbank) (sampling_rate : Q)
    (waveform : Waveform) : result OnlineFbank :=
  if Qeq_bool sampling_rate (samp_freq (frame_opts (opts fe)))
  then Ok (mkOnlineFbank (opts fe) (fbank_accept (fbank fe) waveform))
  else Err ConfigError.

Definition fe_input_finished (fe : OnlineFbank) : OnlineFbank :=
  mkOnlineFbank (opts fe) (fbank_input_finished (fbank fe)).

Definition fe_num_frames_ready (fe : OnlineFbank) : nat :=
  fbank_num_frames_ready (fbank fe).

Definition fe_get_frame (fe : OnlineFbank) (i : nat) : T2 Scalar :=
  fbank_get_frame (fbank fe) i.

Record Stream : Type := mkStream {
  feature_extractor : OnlineFbank;
  features : list (T2 Scalar);
  num_fetched_frames : nat;
  num_trailing_blank_frames : nat;
  states : state Scalar;
  processed_frames : nat;
  context_size : nat;
  subsampling_factor : nat;
  log_eps : Scalar;
  segment : nat;
  frame_offset : nat;
  segment_frame_offset : nat
}.

(** [Stream.__init__]. *)
Definition new_stream (context_size subsampling_factor : nat)
    (initial_states : state Scalar) : Stream :=
  {| feature_extractor := _create_streaming_feature_extractor;
     features := [];
     num_fetched_frames := 0;
     num_trailing_blank_frames := 0;
     states := initial_states;
     processed_frames := 0;
     context_size := context_size;
     subsampling_factor := subsampling_factor;
     log_eps := log_1e_10;
     segment := 0;
     frame_offset := 0;
     segment_frame_offset := 0 |}.

(** *** A state and exception monad over the stream

    A method either returns or raises; in both cases the stream is left as
    the method body had it at that point. *)
Definition M (R : Type) : Type := Stream -> result R * Stream.

Definition ret {R : Type} (r : R) : M R := fun s => (Ok r, s).

Definition bind {R R' : Type} (m : M R) (k : R -> M R') : M R' :=
  fun s => match m s with
           | (Ok r, s') => k r s'
           | (Err e, s') => (Err e, s')
           end.

Definition get : M Stream := fun s => (Ok s, s).
Definition put (s : Stream) : M unit := fun _ => (Ok tt, s).
Definition raise {R : Type} (e : exn) : M R := fun s => (Err e, s).

Notation "x <- m ;; k" := (bind m (fun x => k))
  (at level 61, m at next level, right associativity).
Notation "m ;;; k" := (bind m (fun _ => k))
  (at level 61, right associativity).

(** Field assignments [self.f = v]. *)
Definition set_feature_extractor (s : Stream) (v : OnlineFbank) : Stream :=
  {| feature_extractor := v; features := features s;
     num_fetched_frames := num_fetched_frames s;
     num_trailing_blank_frames := num_trailing_blank_frames s;
     states := states s; processed_frames := processed_frames s;
     context_size := context_size s; subsampling_factor := subsampling_factor s;
     log_eps := log_eps s; segment := segment s; frame_offset := frame_offset s;
     segment_frame_offset := segment_frame_offset s |}.

Definition set_features (s : Stream) (v : list (T2 Scalar)) : Stream :=
  {| feature_extractor := feature_extractor s; features := v;
     num_fetched_frames := num_fetched_frames s;
     num_trailing_blank_frames := num_trailing_blank_frames s;
     states := states s; processed_frames := processed_frames s;
     context_size := context_size s; subsampling_factor := subsampling_factor s;
     log_eps := log_eps s; segment := segment s; frame_offset := frame_offset s;
     segment_frame_offset := segment_frame_offset s |}.

Definition set_num_fetched_frames (s : Stream) (v : nat) : Stream :=
  {| feature_extractor := feature_extractor s; features := features s;
     num_fetched_frames := v;
     num_trailing_blank_frames := num_trailing_blank_frames s;
     states := states s; processed_frames := processed_frames s;
     context_size := context_size s; subsampling_factor := subsampling_factor s;
     log_eps := log_eps s; segment := segment s; frame_offset := frame_offset s;
     segment_frame_offset := segment_frame_offset s |}.

(** The four assignments of lines 233-236, in that order. *)
Definition reset_segment (s : Stream) : Stream :=
  {| feature_extractor := feature_extractor s; features := features s;
     num_fetched_frames := num_fetched_frames s;
     num_trailing_blank_frames := 0;
     states := states s; processed_frames := 0;
     context_size := context_size s; subsampling_factor := subsampling_factor s;
     log_eps := log_eps s; segment := segment s + 1;
     frame_offset := frame_offset s;
     segment_frame_offset := 0 |}.

(** [_fetch_frames] (lines 182-187).  The extractor is not touched inside
    the loop, so [num_frames_ready - num_fetched_frames] iterations are
    exactly the ones the [while] loop performs; [fuel] counts them. *)
Fixpoint fetch_loop (fuel : nat) (s : Stream) : Stream :=
  match fuel with
  | O => s
  | S fuel' =>
      if num_fetched_frames s <? fe_num_frames_ready (feature_extractor s)
      then
        let frame := fe_get_frame (feature_extractor s) (num_fetched_frames s) in
        let s1 := set_features s (features s ++ [frame]) in
        let s2 := set_num_fetched_frames s1 (num_fetched_frames s1 + 1) in
        fetch_loop fuel' s2
      else s
  end.

Definition _fetch_frames : M unit :=
  fun s =>
    (Ok tt,
     fetch_loop (fe_num_frames_ready (feature_extractor s) - num_fetched_frames s) s).

(** [Stream.accept_waveform] (lines 146-173). *)
Definition accept_waveform (sampling_rate : Q) (waveform : Waveform) : M unit :=
  s <- get ;;
  match fe_accept_waveform (feature_extractor s) sampling_rate waveform with
  | Err e => raise e
  | Ok fe => put (set_feature_extractor s fe)
  end ;;;
  _fetch_frames.

(** [Stream.input_finished] (lines 175-180). *)
Definition input_finished : M unit :=
  s <- get ;;
  put (set_feature_extractor s (fe_input_finished (feature_extractor s))) ;;;
  _fetch_frames.

(** Python's [l * n] on lists: [n] copies, none when [n <= 0]. *)
Definition list_mul {T : Type} (l : list T) (n : Z) : list T :=
  concat (repeat l (Z.to_nat n)).

(** [torch.full((r0, r1), fill_value=v)]. *)
Definition torch_full {T : Type} (r0 r1 : nat) (v : T) : T2 T :=
  mkT2 r0 r1 (repeat (repeat v r1) r0).

(** [Stream.add_tail_paddings] (lines 189-205). *)
Definition add_tail_paddings (n : Z) : M unit :=
  s <- get ;;
  let tail_padding :=
    torch_full 1 (num_bins (mel_opts (opts (feature_extractor s)))) (log_eps s) in
  put (set_features s (features s ++ list_mul [tail_padding] n)).

(** [Stream.endpoint_detected] (lines 207-238). *)
Definition endpoint_detected (config : OnlineEndpointConfig) : M bool :=
  s <- get ;;
  let frame_shift_in_seconds :=
    (frame_shift_ms (frame_opts (opts (feature_extractor s))) / 1000)%Q in
  let trailing_silence_frames :=
    (num_trailing_blank_frames s * subsampling_factor s)%nat in
  let detected :=
    sherpa_endpoint_detected config (processed_frames s)
      trailing_silence_frames frame_shift_in_seconds in
  (if detected then put (reset_segment s) else ret tt) ;;;
  ret detected.

(** A session: the [accept_waveform] calls of [chunks], in order, then
    [input_finished]; the streams after each call.  A raising call ends
    the session. *)
Fixpoint run_session (chunks : list (Q * Waveform)) (s : Stream) : list Stream :=
  match chunks with
  | [] => [snd (input_finished s)]
  | (sampling_rate, waveform) :: rest =>
      match accept_waveform sampling_rate waveform s with
      | (Ok _, s') => s' :: run_session rest s'
      | (Err _, s') => [s']
      end
  end.

(** The feature buffer holds exactly the frames fetched so far, frame [i]
    of the extractor at position [i]. *)
Definition fetch_inv (s : Stream) : Prop :=
  num_fetched_frames s = length (features s) /\
  num_fetched_frames s <= fe_num_frames_ready (feature_extractor s) /\
  (forall i, i < num_fetched_frames s ->
     nth_error (features s) i = Some (fe_get_frame (feature_extractor s) i)).

(** A caller's use of a stream: any sequence of its public methods.
    [run_ops] returns the final stream and the number of endpoints
    detected; a raised exception ends the sequence. *)
Inductive stream_op : Type :=
| OpAcceptWaveform (sampling_rate : Q) (waveform : Waveform)
| OpInputFinished
| OpAddTailPaddings (n : Z)
| OpEndpointDetected (config : OnlineEndpointConfig).

Definition exec_op (op : stream_op) : M bool :=
  match op with
  | OpAcceptWaveform sampling_rate waveform =>
      accept_waveform sampling_rate waveform ;;; ret false
  | OpInputFinished => input_finished ;;; ret false
  | OpAddTailPaddings n => add_tail_paddings n ;;; ret false
  | OpEndpointDetected config => endpoint_detected config
  end.

Fixpoint run_ops (ops : list stream_op) (s : Stream) : Stream * nat :=
  match ops with
  | [] => (s, 0)
  | op :: rest =>
      match exec_op op s with
      | (Ok detected, s') =>
          let '(s'', n) := run_ops rest s' in (s'', (if detected then 1 else 0) + n)
      | (Err _, s') => (s', 0)
      end
  end.

(** The fields the buffer methods must not touch. *)
Definition decoding_fields_eq (s s' : Stream) : Prop :=
  states s' = states s /\
  num_trailing_blank_frames s' = num_trailing_blank_frames s /\
  processed_frames s' = processed_frames s /\
  context_size s' = context_size s /\
  subsampling_factor s' = subsampling_factor s /\
  log_eps s' = log_eps s /\
  segment s' = segment s /\
  frame_offset s' = frame_offset s /\
  segment_frame_offset s' = segment_frame_offset s.

(** One method call: how [segment] moves with the value returned, and what
    never moves the wrong way. *)
Definition op_step_ok (s : Stream) (r : result bool) (s' : Stream) : Prop :=
  segment s' = segment s + (match r with Ok true => 1 | _ => 0 end) /\
  frame_offset s' = frame_offset s /\
  processed_frames s' <= processed_frames s /\
  num_trailing_blank_frames s' <= num_trailing_blank_frames s /\
  segment_frame_offset s' <= segment_frame_offset s /\
  states s' = states s /\ context_size s' = context_size s /\
  subsampling_factor s' = subsampling_factor s /\ log_eps s' = log_eps s /\
  (exists suffix, features s' = features s ++ suffix) /\
  num_fetched_frames s <= num_fetched_frames s' /\
  (num_fetched_frames s <= length (features s) ->
   num_fetched_frames s' <= length (features s')).

(** ** Properties of the stream methods *)

Lemma set_features_same (s : Stream) : set_features s (features s) = s.
Proof. destruct s; reflexivity. Qed.

Lemma endpoint_detected_eq (config : OnlineEndpointConfig) (s : Stream) :
  endpoint_detected config s =
  let d := sherpa_endpoint_detected config (processed_frames s)
             (num_trailing_blank_frames s * subsampling_factor s)
             (frame_shift_ms (frame_opts (opts (feature_extractor s))) / 1000) in
  (Ok d, if d then reset_segment s else s).
Proof.
  unfold endpoint_detected, bind, get, put, ret; cbn.
  destruct (sherpa_endpoint_detected _ _ _ _); reflexivity.
Qed.

(** C2: when [endpoint_detected] returns [True], the segment-local
    counters are reset, [segment] goes up by one and [frame_offset] stays. *)
Theorem endpoint_detected_true_resets (config : OnlineEndpointConfig) (s : Stream) :
  fst (endpoint_detected config s) = Ok true ->
  let s' := snd (endpoint_detected config s) in
  num_trailing_blank_frames s' = 0 /\ processed_frames s' = 0 /\
  segment_frame_offset s' = 0 /\ segment s' = segment s + 1 /\
  frame_offset s' = frame_offset s.
Proof.
  rewrite endpoint_detected_eq; cbn.
  intros H; injection H as ->; cbn; repeat split; reflexivity.
Qed.

(** C3: when [endpoint_detected] returns [False], the stream is left as it
    was, every field included. *)
Theorem endpoint_detected_false_noop (config : OnlineEndpointConfig) (s : Stream) :
  fst (endpoint_detected config s) = Ok false ->
  snd (endpoint_detected config s) = s.
Proof.
  rewrite endpoint_detected_eq; cbn.
  intros H; injection H as ->; reflexivity.
Qed.

(** C6: the value returned is the external predicate applied to
    [processed_frames], [num_trailing_blank_frames * subsampling_factor]
    and the extractor's frame shift in milliseconds divided by 1000. *)
Theorem endpoint_detected_value (config : OnlineEndpointConfig) (s : Stream) :
  fst (endpoint_detected config s) =
  Ok (sherpa_endpoint_detected config (processed_frames s)
        (num_trailing_blank_frames s * subsampling_factor s)
        (frame_shift_ms (frame_opts (opts (feature_extractor s))) / 1000)).
Proof. rewrite endpoint_detected_eq; reflexivity. Qed.

(** C9: whatever it returns, [endpoint_detected] writes at most
    [num_trailing_blank_frames], [processed_frames], [segment] and
    [segment_frame_offset]; every other field keeps its value. *)
Theorem endpoint_detected_frame (config : OnlineEndpointConfig) (s : Stream) :
  exists ntb pf sg sfo,
    snd (endpoint_detected config s) =
    {| feature_extractor := feature_extractor s; features := features s;
       num_fetched_frames := num_fetched_frames s;
       num_trailing_blank_frames := ntb;
       states := states s; processed_frames := pf;
       context_size := context_size s; subsampling_factor := subsampling_factor s;
       log_eps := log_eps s; segment := sg; frame_offset := frame_offset s;
       segment_frame_offset := sfo |}.
Proof.
  rewrite endpoint_detected_eq; cbn.
  destruct (sherpa_endpoint_detected _ _ _ _).
  - exists 0, 0, (segment s + 1), 0; reflexivity.
  - exists (num_trailing_blank_frames s), (processed_frames s), (segment s),
      (segment_frame_offset s); destruct s; reflexivity.
Qed.

Lemma add_tail_paddings_eq (n : Z) (s : Stream) :
  add_tail_paddings n s =
  (Ok tt,
   set_features s
     (features s ++
      list_mul [torch_full 1 (num_bins (mel_opts (opts (feature_extractor s))))
                  (log_eps s)] n)).
Proof. reflexivity. Qed.

Lemma list_mul_singleton {T : Type} (x : T) (n : Z) :
  list_mul [x] n = repeat x (Z.to_nat n).
Proof.
  unfold list_mul; induction (Z.to_nat n) as [|k IH]; cbn; [reflexivity|].
  now rewrite IH.
Qed.

(** C5: for [n >= 0], [add_tail_paddings n] appends [n] frames of shape
    [(1, num_bins)] filled with [log(1e-10)], leaves [num_fetched_frames]
    and the extractor as they were, and its result does not depend on the
    extractor's internal state. *)
Theorem add_tail_paddings_appends (n : Z) (s : Stream) :
  (0 <= n)%Z ->
  log_eps s = log_1e_10 ->
  let nb := num_bins (mel_opts (opts (feature_extractor s))) in
  let s' := snd (add_tail_paddings n s) in
  fst (add_tail_paddings n s) = Ok tt /\
  (exists pad, features s' = features s ++ pad /\
     Z.of_nat (length pad) = n /\
     Forall (fun f => r0 f = 1 /\ r1 f = nb /\ e2 f = [repeat log_1e_10 nb]) pad) /\
  num_fetched_frames s' = num_fetched_frames s /\
  feature_extractor s' = feature_extractor s /\
  (forall x : X,
     snd (add_tail_paddings n
            (set_feature_extractor s (mkOnlineFbank (opts (feature_extractor s)) x)))
     = set_feature_extractor s' (mkOnlineFbank (opts (feature_extractor s)) x)).
Proof.
  intros Hn Hlog nb s'; subst s'; rewrite add_tail_paddings_eq; cbn.
  split; [reflexivity|]. split; [|split; [reflexivity|split; [reflexivity|]]].
  - exists (repeat (torch_full 1 nb (log_eps s)) (Z.to_nat n)).
    rewrite list_mul_singleton; split; [reflexivity|]. split.
    + rewrite repeat_length; lia.
    + apply Forall_forall; intros f Hf; apply repeat_spec in Hf; subst f.
      rewrite Hlog; cbn; repeat split; reflexivity.
  - intros x; reflexivity.
Qed.

(** C10: for [n <= 0], [add_tail_paddings n] appends nothing and raises
    nothing: the stream is unchanged. *)
Theorem add_tail_paddings_nonpos (n : Z) (s : Stream) :
  (n <= 0)%Z -> add_tail_paddings n s = (Ok tt, s).
Proof.
  intros Hn; rewrite add_tail_paddings_eq, list_mul_singleton.
  replace (Z.to_nat n) with 0 by lia; cbn.
  now rewrite app_nil_r, set_features_same.
Qed.

(** C7: a sampling rate other than the extractor's 16000 Hz makes
    [accept_waveform] fail with [ConfigError], the stream untouched. *)
Theorem accept_waveform_rate_mismatch (sampling_rate : Q) (waveform : Waveform)
    (s : Stream) :
  samp_freq (frame_opts (opts (feature_extractor s))) = 16000%Q ->
  ~ (sampling_rate == 16000)%Q ->
  accept_waveform sampling_rate waveform s = (Err ConfigError, s).
Proof.
  intros Hf Hr; unfold accept_waveform, fe_accept_waveform, bind, get; cbn.
  rewrite Hf; destruct (Qeq_bool sampling_rate 16000) eqn:E.
  - apply Qeq_bool_eq in E; contradiction.
  - reflexivity.
Qed.

(** *** Fetching frames *)

(** The extractor keeps the frames it has made ready: feeding it more audio
    or flushing it never withdraws nor changes one. *)
Hypothesis fbank_accept_ready : forall x w,
  fbank_num_frames_ready x <= fbank_num_frames_ready (fbank_accept x w).
Hypothesis fbank_accept_frame : forall x w i,
  i < fbank_num_frames_ready x ->
  fbank_get_frame (fbank_accept x w) i = fbank_get_frame x i.
Hypothesis fbank_input_finished_ready : forall x,
  fbank_num_frames_ready x <= fbank_num_frames_ready (fbank_input_finished x).
Hypothesis fbank_input_finished_frame : forall x i,
  i < fbank_num_frames_ready x ->
  fbank_get_frame (fbank_input_finished x) i = fbank_get_frame x i.

Lemma fetch_loop_spec (fuel : nat) (s : Stream) :
  fetch_inv s ->
  let s' := fetch_loop fuel s in
  feature_extractor s' = feature_extractor s /\
  num_fetched_frames s <= num_fetched_frames s' /\
  fetch_inv s'.
Proof.
  revert s; induction fuel as [|fuel IH]; intros s Hinv; cbn [fetch_loop]; [split; auto|].
  destruct (Nat.ltb_spec (num_fetched_frames s)
              (fe_num_frames_ready (feature_extractor s))) as [Hlt|Hge];
    [|split; auto].
  destruct Hinv as (Hlen & Hle & Hnth).
  match goal with |- context [fetch_loop fuel ?s2] => 
    assert (Hinv2 : fetch_inv s2) end.
  { unfold fetch_inv; cbn. rewrite length_app; cbn. split; [lia|]. split; [lia|].
    intros i Hi. destruct (Nat.eq_dec i (num_fetched_frames s)) as [->|Hne].
    - rewrite nth_error_app2 by lia. rewrite Hlen, Nat.sub_diag; reflexivity.
    - rewrite nth_error_app1 by lia. apply Hnth; lia. }
  destruct (IH _ Hinv2) as (Hfe & Hmono & Hinv'); cbn in *.
  split; [exact Hfe|]. split; [lia|exact Hinv'].
Qed.

Lemma set_feature_extractor_inv (s : Stream) (fe : OnlineFbank) :
  fetch_inv s ->
  fe_num_frames_ready (feature_extractor s) <= fe_num_frames_ready fe ->
  (forall i, i < fe_num_frames_ready (feature_extractor s) ->
     fe_get_frame fe i = fe_get_frame (feature_extractor s) i) ->
  fetch_inv (set_feature_extractor s fe).
Proof.
  intros (Hlen & Hle & Hnth) Hready Hframe; unfold fetch_inv; cbn.
  split; [exact Hlen|]. split; [lia|].
  intros i Hi; rewrite Hframe by lia; apply Hnth; exact Hi.
Qed.

Lemma accept_waveform_inv (sampling_rate : Q) (waveform : Waveform) (s : Stream) :
  fetch_inv s ->
  let s' := snd (accept_waveform sampling_rate waveform s) in
  num_fetched_frames s <= num_fetched_frames s' /\ fetch_inv s'.
Proof.
  intros Hinv; unfold accept_waveform, fe_accept_waveform, bind, get, put, raise; cbn.
  destruct (Qeq_bool _ _); cbn; [|split; auto].
  unfold _fetch_frames.
  match goal with |- context [fetch_loop ?f ?s1] =>
    assert (H1 : fetch_inv s1); [|destruct (fetch_loop_spec f s1 H1) as (_ & Hm & Hi)] end.
  - apply set_feature_extractor_inv; [exact Hinv|apply fbank_accept_ready|].
    intros i Hi; apply fbank_accept_frame; exact Hi.
  - cbn in *; split; [exact Hm|exact Hi].
Qed.

Lemma input_finished_inv (s : Stream) :
  fetch_inv s ->
  let s' := snd (input_finished s) in
  num_fetched_frames s <= num_fetched_frames s' /\ fetch_inv s'.
Proof.
  intros Hinv; unfold input_finished, bind, get, put; cbn.
  unfold _fetch_frames.
  match goal with |- context [fetch_loop ?f ?s1] =>
    assert (H1 : fetch_inv s1); [|destruct (fetch_loop_spec f s1 H1) as (_ & Hm & Hi)] end.
  - apply set_feature_extractor_inv; [exact Hinv|apply fbank_input_finished_ready|].
    intros i Hi; apply fbank_input_finished_frame; exact Hi.
  - cbn in *; split; [exact Hm|exact Hi].
Qed.

Lemma sorted_pair (a b : nat) : a <= b -> Sorted le [a; b].
Proof.
  intros H; apply Sorted_cons; [apply Sorted_cons; [apply Sorted_nil|apply HdRel_nil]|].
  apply HdRel_cons; exact H.
Qed.

Lemma run_session_inv (chunks : list (Q * Waveform)) (s : Stream) :
  fetch_inv s ->
  Sorted le (map num_fetched_frames (s :: run_session chunks s)) /\
  Forall fetch_inv (s :: run_session chunks s).
Proof.
  revert s; induction chunks as [|[r w] rest IH]; intros s Hinv; cbn [run_session].
  - destruct (input_finished_inv s Hinv) as [Hm Hi].
    split; [apply sorted_pair; exact Hm|constructor; [|constructor; [|constructor]]; assumption].
  - pose proof (accept_waveform_inv r w s Hinv) as [Hm Hi].
    destruct (accept_waveform r w s) as [[u|e] s'] eqn:E; cbn [fst snd map] in *.
    + destruct (IH s' Hi) as [Hs Hf]. split.
      * constructor; [exact Hs|constructor; exact Hm].
      * constructor; assumption.
    + split; [apply sorted_pair; exact Hm|constructor; [|constructor; [|constructor]]; assumption].
Qed.

Lemma new_stream_inv (cs sf : nat) (init : state Scalar) :
  fetch_inv (new_stream cs sf init).
Proof. unfold fetch_inv; cbn; split; [reflexivity|split; [lia|intros; lia]]. Qed.

(** C4: along a session started on a new stream, [num_fetched_frames]
    never decreases, and after every call it is the length of [features],
    whose entry [i] is the extractor's frame [i]. *)
Theorem session_fetch_monotone (cs sf : nat) (init : state Scalar)
    (chunks : list (Q * Waveform)) :
  let s0 := new_stream cs sf init in
  Sorted le (map num_fetched_frames (s0 :: run_session chunks s0)) /\
  Forall (fun s =>
            num_fetched_frames s = length (features s) /\
            forall i, i < num_fetched_frames s ->
              nth_error (features s) i = Some (fe_get_frame (feature_extractor s) i))
         (s0 :: run_session chunks s0).
Proof.
  intros s0; destruct (run_session_inv chunks s0 (new_stream_inv cs sf init)) as [Hs Hf].
  split; [exact Hs|].
  eapply Forall_impl; [|exact Hf]; intros s (Hlen & _ & Hnth); split; assumption.
Qed.

(** *** What the buffer methods fetch, and what they leave alone *)

Lemma fetch_loop_eq (fuel : nat) (s : Stream) :
  fuel = fe_num_frames_ready (feature_extractor s) - num_fetched_frames s ->
  fetch_loop fuel s =
  set_num_fetched_frames
    (set_features s
       (features s ++
        map (fe_get_frame (feature_extractor s))
            (seq (num_fetched_frames s)
                 (fe_num_frames_ready (feature_extractor s) - num_fetched_frames s))))
    (Nat.max (num_fetched_frames s) (fe_num_frames_ready (feature_extractor s))).
Proof.
  revert s; induction fuel as [|fuel IH]; intros s Hf; cbn [fetch_loop].
  - rewrite <- Hf; cbn; rewrite app_nil_r.
    replace (Nat.max _ _) with (num_fetched_frames s) by lia.
    destruct s; reflexivity.
  - destruct (Nat.ltb_spec (num_fetched_frames s)
                (fe_num_frames_ready (feature_extractor s))) as [Hlt|Hge]; [|lia].
    rewrite IH by (cbn; lia); cbn.
    replace (fe_num_frames_ready (feature_extractor s) - num_fetched_frames s)
      with (S (fe_num_frames_ready (feature_extractor s) - (num_fetched_frames s + 1)))
      by lia.
    cbn [seq map]; rewrite <- app_assoc; cbn [app].
    replace (S (num_fetched_frames s)) with (num_fetched_frames s + 1) by lia.
    replace (Nat.max (num_fetched_frames s + 1) _)
      with (Nat.max (num_fetched_frames s) (fe_num_frames_ready (feature_extractor s)))
      by lia.
    reflexivity.
Qed.

Lemma fetch_frames_eq (s : Stream) :
  _fetch_frames s =
  (Ok tt,
   set_num_fetched_frames
     (set_features s
        (features s ++
         map (fe_get_frame (feature_extractor s))
             (seq (num_fetched_frames s)
                  (fe_num_frames_ready (feature_extractor s) - num_fetched_frames s))))
     (Nat.max (num_fetched_frames s) (fe_num_frames_ready (feature_extractor s)))).
Proof. unfold _fetch_frames; rewrite fetch_loop_eq by reflexivity; reflexivity. Qed.

Lemma accept_waveform_eq (sampling_rate : Q) (waveform : Waveform) (s : Stream) :
  accept_waveform sampling_rate waveform s =
  match fe_accept_waveform (feature_extractor s) sampling_rate waveform with
  | Ok fe => _fetch_frames (set_feature_extractor s fe)
  | Err e => (Err e, s)
  end.
Proof.
  unfold accept_waveform, bind, get, put, raise; cbn.
  destruct (fe_accept_waveform _ _ _); reflexivity.
Qed.

(** X1: an accepted sampling rate feeds the samples to the extractor, then
    appends, in order, every frame the extractor has ready beyond
    [num_fetched_frames]; the watermark moves to the extractor's count. *)
Theorem accept_waveform_fetches (sampling_rate : Q) (waveform : Waveform) (s : Stream) :
  (sampling_rate == samp_freq (frame_opts (opts (feature_extractor s))))%Q ->
  let fe := mkOnlineFbank (opts (feature_extractor s))
              (fbank_accept (fbank (feature_extractor s)) waveform) in
  let n := num_fetched_frames s in
  accept_waveform sampling_rate waveform s =
  (Ok tt,
   set_num_fetched_frames
     (set_features (set_feature_extractor s fe)
        (features s ++ map (fe_get_frame fe) (seq n (fe_num_frames_ready fe - n))))
     (Nat.max n (fe_num_frames_ready fe))).
Proof.
  intros Hr fe n; rewrite accept_waveform_eq; unfold fe_accept_waveform.
  apply Qeq_bool_iff in Hr; rewrite Hr; rewrite fetch_frames_eq; reflexivity.
Qed.

(** X2: [input_finished] flushes the extractor, then appends, in order,
    every frame it has ready beyond [num_fetched_frames]. *)
Theorem input_finished_fetches (s : Stream) :
  let fe := fe_input_finished (feature_extractor s) in
  let n := num_fetched_frames s in
  input_finished s =
  (Ok tt,
   set_num_fetched_frames
     (set_features (set_feature_extractor s fe)
        (features s ++ map (fe_get_frame fe) (seq n (fe_num_frames_ready fe - n))))
     (Nat.max n (fe_num_frames_ready fe))).
Proof.
  intros fe n; unfold input_finished, bind, get, put.
  cbn [fst snd]; rewrite fetch_frames_eq; reflexivity.
Qed.

(** X3: [accept_waveform], [input_finished] and [add_tail_paddings], raising
    or not, leave the decoding state alone: the LSTM states, the
    configuration and every counter other than [num_fetched_frames]. *)
Theorem buffer_methods_keep_decoding_fields :
  (forall sampling_rate waveform s,
     decoding_fields_eq s (snd (accept_waveform sampling_rate waveform s))) /\
  (forall s, decoding_fields_eq s (snd (input_finished s))) /\
  (forall n s, decoding_fields_eq s (snd (add_tail_paddings n s))).
Proof.
  unfold decoding_fields_eq; split; [|split].
  - intros r w s; rewrite accept_waveform_eq; unfold fe_accept_waveform.
    destruct (Qeq_bool _ _); [rewrite fetch_frames_eq|]; cbn; repeat split.
  - intros s; rewrite input_finished_fetches; cbn; repeat split.
  - intros n s; rewrite add_tail_paddings_eq; cbn; repeat split.
Qed.

(** X4: two paddings of [n >= 0] and [m >= 0] frames are one padding of
    [n + m] frames. *)
Theorem add_tail_paddings_compose (n m : Z) :
  (0 <= n)%Z -> (0 <= m)%Z ->
  forall s, (add_tail_paddings n ;;; add_tail_paddings m) s = add_tail_paddings (n + m) s.
Proof.
  intros Hn Hm s; unfold bind; rewrite add_tail_paddings_eq.
  rewrite !add_tail_paddings_eq; cbn.
  rewrite !list_mul_singleton, <- app_assoc, <- repeat_app.
  replace (Z.to_nat n + Z.to_nat m) with (Z.to_nat (n + m)) by lia.
  reflexivity.
Qed.

Lemma fetched_step_ok (s : Stream) (fe : OnlineFbank) :
  op_step_ok s (Ok false) (snd (_fetch_frames (set_feature_extractor s fe))).
Proof.
  unfold op_step_ok; rewrite fetch_frames_eq.
  unfold set_num_fetched_frames, set_features, set_feature_extractor; cbn.
  repeat split; try lia.
  - eexists; reflexivity.
  - intros H; rewrite length_app, length_map, length_seq; lia.
Qed.

Lemma seq_ret_false (m : M unit) (s : Stream) :
  (m ;;; ret false) s =
  match m s with
  | (Ok _, s') => (Ok false, s')
  | (Err e, s') => (Err e, s')
  end.
Proof. unfold bind, ret; destruct (m s) as [[[]|e] s']; reflexivity. Qed.

Lemma exec_op_step_ok (op : stream_op) (s : Stream) :
  op_step_ok s (fst (exec_op op s)) (snd (exec_op op s)).
Proof.
  destruct op as [r w| |n|config]; cbn [exec_op]; try rewrite seq_ret_false.
  - rewrite accept_waveform_eq; unfold fe_accept_waveform.
    destruct (Qeq_bool _ _).
    + pose proof (fetched_step_ok s
        (mkOnlineFbank (opts (feature_extractor s))
           (fbank_accept (fbank (feature_extractor s)) w))) as H.
      rewrite fetch_frames_eq in H |- *; exact H.
    + unfold op_step_ok; cbn; repeat split; try lia.
      exists []; now rewrite app_nil_r.
  - pose proof (fetched_step_ok s (fe_input_finished (feature_extractor s))) as H.
    rewrite input_finished_fetches; rewrite fetch_frames_eq in H; exact H.
  - rewrite add_tail_paddings_eq; unfold op_step_ok, set_features; cbn.
    repeat split; try lia.
    + eexists; reflexivity.
    + intros H; rewrite length_app; lia.
  - rewrite endpoint_detected_eq; unfold op_step_ok; cbn.
    destruct (sherpa_endpoint_detected _ _ _ _); cbn; repeat split; try lia;
      exists []; now rewrite app_nil_r.
Qed.

Lemma run_ops_steps (ops : list stream_op) (s : Stream) :
  let '(s', n) := run_ops ops s in
  segment s' = segment s + n /\
  frame_offset s' = frame_offset s /\
  processed_frames s' <= processed_frames s /\
  num_trailing_blank_frames s' <= num_trailing_blank_frames s /\
  segment_frame_offset s' <= segment_frame_offset s /\
  states s' = states s /\ context_size s' = context_size s /\
  subsampling_factor s' = subsampling_factor s /\ log_eps s' = log_eps s /\
  (exists suffix, features s' = features s ++ suffix) /\
  num_fetched_frames s <= num_fetched_frames s' /\
  (num_fetched_frames s <= length (features s) ->
   num_fetched_frames s' <= length (features s')).
Proof.
  revert s; induction ops as [|op rest IH]; intros s; cbn [run_ops].
  - repeat split; try lia. exists []; now rewrite app_nil_r.
  - pose proof (exec_op_step_ok op s) as Hop.
    destruct (exec_op op s) as [[d|e] s1]; cbn [fst snd] in Hop.
    + specialize (IH s1); destruct (run_ops rest s1) as [s2 k].
      destruct Hop as (Hsg & Hfo & Hpf & Htb & Hso & Hst & Hcs & Hsf & Hle &
                       [suf1 Hf1] & Hnf & Hinv).
      destruct IH as (Isg & Ifo & Ipf & Itb & Iso & Ist & Ics & Isf & Ile &
                      [suf2 Hf2] & Inf & Iinv).
      repeat split; try congruence; try lia.
      * exists (suf1 ++ suf2); rewrite Hf2, Hf1, app_assoc; reflexivity.
    + destruct Hop as (Hsg & Hfo & Hpf & Htb & Hso & Hst & Hcs & Hsf & Hle &
                       Hsuf & Hnf & Hinv).
      cbn in Hsg; repeat split; try assumption; lia.
Qed.

(** X5: over any sequence of method calls, [segment] grows by exactly the
    number of endpoints detected, and [frame_offset] never changes. *)
Theorem run_ops_segment_count (ops : list stream_op) (s : Stream) :
  segment (fst (run_ops ops s)) = segment s + snd (run_ops ops s) /\
  frame_offset (fst (run_ops ops s)) = frame_offset s.
Proof.
  pose proof (run_ops_steps ops s) as H; destruct (run_ops ops s) as [s' n].
  cbn; destruct H as (H1 & H2 & _); split; assumption.
Qed.

(** X6: no method of the stream ever increases [processed_frames],
    [num_trailing_blank_frames] or [segment_frame_offset] (only the caller
    does), nor replaces the LSTM states, [context_size],
    [subsampling_factor] or [log_eps]. *)
Theorem run_ops_counters_never_grow (ops : list stream_op) (s : Stream) :
  let s' := fst (run_ops ops s) in
  processed_frames s' <= processed_frames s /\
  num_trailing_blank_frames s' <= num_trailing_blank_frames s /\
  segment_frame_offset s' <= segment_frame_offset s /\
  states s' = states s /\ context_size s' = context_size s /\
  subsampling_factor s' = subsampling_factor s /\ log_eps s' = log_eps s.
Proof.
  pose proof (run_ops_steps ops s) as H; destruct (run_ops ops s) as [s' n].
  cbn; destruct H as (_ & _ & H3 & H4 & H5 & H6 & H7 & H8 & H9 & _).
  repeat split; assumption.
Qed.

(** X7: over any sequence of method calls the feature buffer is
    append-only, [num_fetched_frames] never decreases, and it never
    exceeds the buffer's length if it did not at the start. *)
Theorem run_ops_buffer_append_only (ops : list stream_op) (s : Stream) :
  let s' := fst (run_ops ops s) in
  (exists suffix, features s' = features s ++ suffix) /\
  num_fetched_frames s <= num_fetched_frames s' /\
  (num_fetched_frames s <= length (features s) ->
   num_fetched_frames s' <= length (features s')).
Proof.
  pose proof (run_ops_steps ops s) as H; destruct (run_ops ops s) as [s' n].
  cbn; destruct H as (_ & _ & _ & _ & _ & _ & _ & _ & _ & H10 & H11 & H12).
  repeat split; assumption.
Qed.

End StreamModel.

(** ** Properties of the batch codec *)

Section Codec.

Context {A : Type}.

Lemma zip_with_map {T U V W : Type} (f : U -> V -> W) (g : T -> U) (h : T -> V)
    (l : list T) :
  zip_with f (map g l) (map h l) = map (fun x => f (g x) (h x)) l.
Proof. induction l as [|x l IH]; cbn; [reflexivity|now rewrite IH]. Qed.

Lemma map_const_repeat {T U : Type} (c : U) (l : list T) :
  map (fun _ => c) l = repeat c (length l).
Proof. induction l as [|x l IH]; cbn; [reflexivity|now rewrite IH]. Qed.

Lemma nth_firstn_skipn {T : Type} (m : list T) (k n : nat) (d : T) :
  k < length m -> nth k m d :: firstn n (skipn (S k) m) = firstn (S n) (skipn k m).
Proof.
  revert k; induction m as [|x m IH]; intros k Hk; cbn in *; [lia|].
  destruct k as [|k]; [reflexivity|].
  apply IH; lia.
Qed.

Lemma list_sum_ones {T : Type} (l : list T) :
  list_sum (map (fun _ => 1) l) = length l.
Proof. unfold list_sum; induction l as [|x l IH]; cbn; [reflexivity|now rewrite IH]. Qed.

Lemma map_fst_combine {T U : Type} (l1 : list T) (l2 : list U) :
  length l1 <= length l2 -> map fst (combine l1 l2) = l1.
Proof.
  revert l2; induction l1 as [|x l1 IH]; intros [|y l2] H; cbn in *; try lia; try reflexivity.
  rewrite IH by lia; reflexivity.
Qed.

Lemma map_snd_combine {T U : Type} (l1 : list T) (l2 : list U) :
  length l2 <= length l1 -> map snd (combine l1 l2) = l2.
Proof.
  revert l2; induction l1 as [|x l1 IH]; intros [|y l2] H; cbn in *; try lia; try reflexivity.
  rewrite IH by lia; reflexivity.
Qed.

Lemma combine_fst_snd {T U : Type} (l : list (T * U)) :
  combine (map fst l) (map snd l) = l.
Proof.
  induction l as [|[x y] l IH]; cbn; [reflexivity|now rewrite IH].
Qed.

Lemma length_unbind1 (t : T3 A) : length (unbind1 t) = d1 t.
Proof. unfold unbind1; now rewrite length_map, length_seq. Qed.

(** Gluing the columns [k .. k+n-1] of [E] back together. *)
Lemma cat_columns (E : list (list (list A))) (n0 n2 k n : nat) :
  Forall (fun m => k + n <= length m) E ->
  fold_right (fun u acc => zip_with (@app (list A)) (e3 u) acc)
    (repeat [] (length E))
    (map (fun j => unsqueeze1 (mkT2 n0 n2 (map (fun m => nth j m []) E)))
         (seq k n)) =
  map (fun m => firstn n (skipn k m)) E.
Proof.
  revert k; induction n as [|n IH]; intros k HE; cbn.
  - symmetry; apply map_const_repeat.
  - rewrite IH.
    2:{ eapply Forall_impl; [|exact HE]; intros m Hm; cbn in Hm; lia. }
    rewrite map_map, zip_with_map.
    apply map_ext_in; intros m Hm.
    rewrite Forall_forall in HE; specialize (HE m Hm).
    cbn; apply nth_firstn_skipn; lia.
Qed.

Lemma cat1_unbind1 (t : T3 A) :
  wf3 t -> 1 <= d1 t -> cat1 (map unsqueeze1 (unbind1 t)) = Ok t.
Proof.
  intros [Hlen Hrows] Hn; destruct t as [n0 n1 n2 E]; cbn in *.
  unfold unbind1; cbn; rewrite map_map.
  destruct n1 as [|n1]; [lia|].
  set (u := fun j => unsqueeze1 (mkT2 n0 n2 (map (fun m => nth j m []) E))).
  change (cat1 (map u (seq 0 (S n1))) = Ok (mkT3 n0 (S n1) n2 E)).
  assert (Hck : forallb (fun v => Nat.eqb (d0 v) n0 && Nat.eqb (d2 v) n2)
                  (map u (seq 0 (S n1))) = true).
  { apply forallb_forall; intros v Hv; apply in_map_iff in Hv as (j & <- & _).
    cbn; now rewrite !Nat.eqb_refl. }
  cbn [seq map] in *; unfold cat1; cbn [d0 d2 u unsqueeze1 r0 r1] in *.
  rewrite Hck.
  change (u 0 :: map u (seq 1 n1)) with (map u (seq 0 (S n1))).
  f_equal; f_equal.
  - rewrite map_map; subst u; cbn [d1 unsqueeze1].
    rewrite list_sum_ones, length_seq; reflexivity.
  - unfold cat1_data; rewrite <- Hlen; subst u; rewrite cat_columns.
    2:{ eapply Forall_impl; [|exact Hrows]; intros m [Hm _]; lia. }
    rewrite <- (map_id E) at 2; apply map_ext_in; intros m Hm.
    rewrite Forall_forall in Hrows; destruct (Hrows m Hm) as [Hl _].
    change (skipn 0 m) with m; rewrite <- Hl; apply firstn_all.
Qed.

Lemma length_zip_with {T U V : Type} (f : T -> U -> V) l1 l2 :
  length (zip_with f l1 l2) = Nat.min (length l1) (length l2).
Proof.
  revert l2; induction l1 as [|x l1 IH]; intros [|y l2]; cbn; auto.
Qed.

Lemma length_cat1_data (n0 : nat) (ts : list (T3 A)) :
  Forall (fun u => length (e3 u) = n0) ts -> length (cat1_data n0 ts) = n0.
Proof.
  induction 1 as [|u ts Hu _ IH]; cbn; [apply repeat_length|].
  rewrite length_zip_with; fold (cat1_data n0 ts); lia.
Qed.

(** Rows [[r] ++ b]: column 0 is [r], column [S j] is column [j] of [b]. *)
Lemma zip_with_singleton_col0 {T : Type} (E B : list (list T)) (d : T) :
  Forall (fun m => length m = 1) E -> length E = length B ->
  map (fun m => nth 0 m d) (zip_with (@app T) E B) = map (fun m => nth 0 m d) E.
Proof.
  intros HE; revert B; induction HE as [|m E Hm _ IH]; intros [|b B] HB;
    cbn in *; try lia; [reflexivity|].
  destruct m as [|r [|]]; cbn in Hm; try lia.
  rewrite IH by lia; reflexivity.
Qed.

Lemma zip_with_singleton_colS {T : Type} (E B : list (list T)) (d : T) (j : nat) :
  Forall (fun m => length m = 1) E -> length E = length B ->
  map (fun m => nth (S j) m d) (zip_with (@app T) E B) = map (fun m => nth j m d) B.
Proof.
  intros HE; revert B; induction HE as [|m E Hm _ IH]; intros [|b B] HB;
    cbn in *; try lia; [reflexivity|].
  destruct m as [|r [|]]; cbn in Hm; try lia.
  rewrite IH by lia; reflexivity.
Qed.

Lemma cat1_data_columns (n0 : nat) (ts : list (T3 A)) :
  Forall (fun u => length (e3 u) = n0 /\ Forall (fun m => length m = 1) (e3 u)) ts ->
  map (fun j => map (fun m => nth j m []) (cat1_data n0 ts)) (seq 0 (length ts)) =
  map (fun u => map (fun m => nth 0 m []) (e3 u)) ts.
Proof.
  intros H; induction H as [|u ts [Hl H1] Hts IH]; [reflexivity|].
  assert (HB : length (e3 u) = length (cat1_data n0 ts)).
  { rewrite length_cat1_data; [exact Hl|].
    eapply Forall_impl; [|exact Hts]; intros v [Hv _]; exact Hv. }
  cbn [length seq map]; rewrite <- seq_shift, map_map.
  change (cat1_data n0 (u :: ts)) with
    (zip_with (@app (list A)) (e3 u) (cat1_data n0 ts)).
  rewrite zip_with_singleton_col0 by assumption; f_equal.
  rewrite <- IH; apply map_ext; intros j.
  apply zip_with_singleton_colS; assumption.
Qed.

Lemma unsqueeze1_col0 (u : T3 A) (n0 n2 : nat) :
  wf3 u -> d0 u = n0 -> d1 u = 1 -> d2 u = n2 ->
  unsqueeze1 (mkT2 n0 n2 (map (fun m => nth 0 m []) (e3 u))) = u.
Proof.
  intros [_ Hrows] H0 H1 H2; destruct u as [m0 m1 m2 E]; cbn in *; subst.
  unfold unsqueeze1; cbn; f_equal.
  rewrite map_map; rewrite <- (map_id E) at 2; apply map_ext_in; intros m Hm.
  rewrite Forall_forall in Hrows; destruct (Hrows m Hm) as [Hl _].
  destruct m as [|r [|]]; cbn in Hl; try lia; reflexivity.
Qed.

Lemma unbind1_cat1 (ts : list (T3 A)) (n0 n2 : nat) :
  ts <> [] ->
  Forall (fun u => wf3 u /\ d0 u = n0 /\ d1 u = 1 /\ d2 u = n2) ts ->
  exists t, cat1 ts = Ok t /\ map unsqueeze1 (unbind1 t) = ts.
Proof.
  intros Hne Hts; destruct ts as [|t0 ts']; [contradiction|].
  pose proof Hts as Hall; rewrite Forall_forall in Hall.
  destruct (Hall t0 (or_introl eq_refl)) as (_ & H0 & _ & H2).
  assert (Hck : forallb (fun u => Nat.eqb (d0 u) (d0 t0) && Nat.eqb (d2 u) (d2 t0))
                  (t0 :: ts') = true).
  { apply forallb_forall; intros u Hu; destruct (Hall u Hu) as (_ & Hu0 & _ & Hu2).
    rewrite Hu0, Hu2, H0, H2, !Nat.eqb_refl; reflexivity. }
  unfold cat1; rewrite Hck; eexists; split; [reflexivity|].
  unfold unbind1; cbn [d0 d1 d2 e3].
  assert (Hsum : list_sum (map d1 (t0 :: ts')) = length (t0 :: ts')).
  { rewrite <- (list_sum_ones (t0 :: ts')); f_equal; apply map_ext_in.
    intros u Hu; destruct (Hall u Hu) as (_ & _ & Hu1 & _); exact Hu1. }
  rewrite Hsum, map_map, H0, H2.
  transitivity (map (fun col => unsqueeze1 (mkT2 n0 n2 col))
                  (map (fun j => map (fun m => nth j m []) (cat1_data n0 (t0 :: ts')))
                       (seq 0 (length (t0 :: ts'))))).
  { rewrite map_map; reflexivity. }
  rewrite cat1_data_columns.
  - rewrite map_map; rewrite <- (map_id (t0 :: ts')) at 2; apply map_ext_in; intros u Hu.
    destruct (Hall u Hu) as (Hw & Hu0 & Hu1 & Hu2).
    apply unsqueeze1_col0; assumption.
  - apply Forall_forall; intros u Hu; destruct (Hall u Hu) as ([Hl Hrows] & Hu0 & Hu1 & _).
    split; [congruence|].
    eapply Forall_impl; [|exact Hrows]; intros m [Hm _]; congruence.
Qed.

Lemma map_pair_combine {T U : Type} (f : T -> U) (l1 l2 : list T) :
  map (fun '(h, c) => (f h, f c)) (combine l1 l2) = combine (map f l1) (map f l2).
Proof.
  revert l2; induction l1 as [|x l1 IH]; intros [|y l2]; cbn; try reflexivity.
  now rewrite IH.
Qed.

End Codec.

(** C1: [stack_states] undoes [unstack_states] on a well-formed batched
    state with a batch axis of size [N >= 1], and [unstack_states] undoes
    [stack_states] on a non-empty list of single-stream states (batch axis
    1) whose hidden, resp. cell, components agree in the other two sizes;
    entry [i] of the list is batch position [i]. *)
Theorem stack_unstack_roundtrip {A : Type} :
  (forall h c : T3 A,
     wf3 h -> wf3 c -> d1 h = d1 c -> 1 <= d1 h ->
     stack_states (unstack_states (h, c)) = Ok (h, c)) /\
  (forall (L : list (state A)) (h0 h2 c0 c2 : nat),
     L <> [] ->
     Forall (fun s => wf3 (fst s) /\ d0 (fst s) = h0 /\ d1 (fst s) = 1 /\
                      d2 (fst s) = h2 /\
                      wf3 (snd s) /\ d0 (snd s) = c0 /\ d1 (snd s) = 1 /\
                      d2 (snd s) = c2) L ->
     rmap unstack_states (stack_states L) = Ok L).
Proof.
  split.
  - intros h c Hh Hc Hn Hpos.
    assert (Hfst : map fst (unstack_states (h, c)) = map unsqueeze1 (unbind1 h)).
    { unfold unstack_states.
      transitivity (map unsqueeze1 (map fst (combine (unbind1 h) (unbind1 c)))).
      - rewrite !map_map; apply map_ext; intros [x y]; reflexivity.
      - rewrite map_fst_combine; [reflexivity|rewrite !length_unbind1; lia]. }
    assert (Hsnd : map snd (unstack_states (h, c)) = map unsqueeze1 (unbind1 c)).
    { unfold unstack_states.
      transitivity (map unsqueeze1 (map snd (combine (unbind1 h) (unbind1 c)))).
      - rewrite !map_map; apply map_ext; intros [x y]; reflexivity.
      - rewrite map_snd_combine; [reflexivity|rewrite !length_unbind1; lia]. }
    unfold stack_states; rewrite Hfst, Hsnd, cat1_unbind1 by assumption; cbn.
    rewrite cat1_unbind1 by (auto; lia); reflexivity.
  - intros L h0 h2 c0 c2 Hne HL.
    assert (Hne' : forall (T : Type) (f : state A -> T), map f L <> []).
    { intros T f E; apply Hne; destruct L; [reflexivity|discriminate]. }
    destruct (unbind1_cat1 (map fst L) h0 h2) as (H & EH & UH).
    { apply Hne'. }
    { apply Forall_map; eapply Forall_impl; [|exact HL]; cbn; intuition. }
    destruct (unbind1_cat1 (map snd L) c0 c2) as (C & EC & UC).
    { apply Hne'. }
    { apply Forall_map; eapply Forall_impl; [|exact HL]; cbn; intuition. }
    unfold stack_states; rewrite EH; cbn; rewrite EC; cbn.
    unfold unstack_states; rewrite map_pair_combine, UH, UC.
    rewrite combine_fst_snd; reflexivity.
Qed.

Lemma cat1_mismatch {A : Type} (ts : list (T3 A)) (u1 u2 : T3 A) :
  In u1 ts -> In u2 ts -> (d0 u1 <> d0 u2 \/ d2 u1 <> d2 u2) ->
  cat1 ts = Err ShapeError.
Proof.
  intros H1 H2 Hd; destruct ts as [|t0 ts']; [contradiction|].
  unfold cat1.
  destruct (forallb _ (t0 :: ts')) eqn:E; [|reflexivity].
  rewrite forallb_forall in E.
  pose proof (E u1 H1) as E1; pose proof (E u2 H2) as E2.
  apply andb_true_iff in E1 as [E10 E12]; apply andb_true_iff in E2 as [E20 E22].
  apply Nat.eqb_eq in E10, E12, E20, E22; lia.
Qed.

Lemma cat1_err {A : Type} (ts : list (T3 A)) (e : exn) :
  ts <> [] -> cat1 ts = Err e -> e = ShapeError.
Proof.
  intros Hne; destruct ts as [|t0 ts']; [contradiction|]; unfold cat1.
  destruct (forallb _ _); intros H; inversion H; reflexivity.
Qed.

Lemma nth_error_combine {T U : Type} (l1 : list T) (l2 : list U) (i : nat) :
  nth_error (combine l1 l2) i =
  match nth_error l1 i, nth_error l2 i with
  | Some a, Some b => Some (a, b)
  | _, _ => None
  end.
Proof.
  revert l2 i; induction l1 as [|a l1 IH]; intros [|b l2] [|i]; cbn; auto.
  destruct (nth_error l1 i); reflexivity.
Qed.

Lemma nth_error_unbind1 {A : Type} (t : T3 A) (i : nat) :
  i < d1 t ->
  option_map unsqueeze1 (nth_error (unbind1 t) i) = Some (narrow1 t i).
Proof.
  intros Hi; unfold unbind1; rewrite nth_error_map.
  rewrite (nth_error_nth' (seq 0 (d1 t)) 0) by (rewrite length_seq; exact Hi).
  rewrite seq_nth by exact Hi; cbn.
  unfold unsqueeze1, narrow1; cbn; rewrite map_map; reflexivity.
Qed.

(** C8 (amended): [stack_states] fails with the size error of [torch.cat]
    as soon as two entries disagree outside the batch axis, in their hidden
    or in their cell component; [unstack_states] checks nothing and always
    returns a list, one entry per batch position common to both components:
    entry [i] pairs batch position [i] of the hidden state with batch
    position [i] of the cell state, and the positions of the longer
    component beyond the shorter one are dropped. *)
Theorem stack_states_shape_error {A : Type} :
  (forall (L : list (state A)) (s1 s2 : state A),
     In s1 L -> In s2 L ->
     (d0 (fst s1) <> d0 (fst s2) \/ d2 (fst s1) <> d2 (fst s2) \/
      d0 (snd s1) <> d0 (snd s2) \/ d2 (snd s1) <> d2 (snd s2)) ->
     stack_states L = Err ShapeError) /\
  (forall h c : T3 A,
     length (unstack_states (h, c)) = Nat.min (d1 h) (d1 c) /\
     (forall i, i < Nat.min (d1 h) (d1 c) ->
        nth_error (unstack_states (h, c)) i = Some (narrow1 h i, narrow1 c i))).
Proof.
  split.
  - intros L s1 s2 H1 H2 Hd; unfold stack_states.
    destruct (cat1 (map fst L)) as [H|e] eqn:EH.
    + assert (Hc : cat1 (map snd L) = Err ShapeError).
      { apply (cat1_mismatch _ (snd s1) (snd s2)); try (apply in_map; assumption).
        destruct Hd as [Hd|[Hd|Hd]];
          [| |exact Hd].
        - rewrite (cat1_mismatch _ (fst s1) (fst s2)) in EH;
            [discriminate| apply in_map; assumption | apply in_map; assumption | auto].
        - rewrite (cat1_mismatch _ (fst s1) (fst s2)) in EH;
            [discriminate| apply in_map; assumption | apply in_map; assumption | auto]. }
      cbn; rewrite Hc; reflexivity.
    + cbn; f_equal; apply (cat1_err (map fst L)); [|exact EH].
      destruct L; [contradiction|discriminate].
  - intros h c; unfold unstack_states; split.
    + rewrite length_map, length_combine, !length_unbind1; reflexivity.
    + intros i Hi; rewrite nth_error_map, nth_error_combine.
      pose proof (nth_error_unbind1 h i ltac:(lia)) as Eh.
      pose proof (nth_error_unbind1 c i ltac:(lia)) as Ec.
      destruct (nth_error (unbind1 h) i) as [x|]; [|discriminate].
      destruct (nth_error (unbind1 c) i) as [y|]; [|discriminate].
      cbn [option_map] in Eh, Ec |- *.
      assert (Eh' : unsqueeze1 x = narrow1 h i) by congruence.
      assert (Ec' : unsqueeze1 y = narrow1 c i) by congruence.
      rewrite Eh', Ec'; reflexivity.
Qed.

(** C8: [unstack_states] does not fail on inconsistent components: a
    hidden state with batch size 2 and a cell state with batch size 3 give
    a list of two entries. *)
Lemma unstack_states_inconsistent_returns :
  let h := mkT3 1 2 1 [[[1%Z]; [2%Z]]] in
  let c := mkT3 1 3 1 [[[1%Z]; [2%Z]; [3%Z]]] in
  wf3 h /\ wf3 c /\ d1 h <> d1 c /\
  unstack_states (h, c) =
  [(mkT3 1 1 1 [[[1%Z]]], mkT3 1 1 1 [[[1%Z]]]);
   (mkT3 1 1 1 [[[2%Z]]], mkT3 1 1 1 [[[2%Z]]])].
Proof.
  intros h c; split; [|split; [|split]].
  - split; [reflexivity|repeat constructor].
  - split; [reflexivity|repeat constructor].
  - cbn; discriminate.
  - reflexivity.
Qed.

Lemma in_zip_with {T U V : Type} (f : T -> U -> V) l1 l2 x :
  In x (zip_with f l1 l2) -> exists a b, In a l1 /\ In b l2 /\ x = f a b.
Proof.
  revert l2; induction l1 as [|a l1 IH]; intros [|b l2] H; cbn in H; try contradiction.
  destruct H as [<-|H].
  - exists a, b; cbn; auto.
  - destruct (IH l2 H) as (a' & b' & Ha & Hb & ->); exists a', b'; cbn; auto.
Qed.

Lemma cat1_data_rows {A : Type} (n0 n2 : nat) (ts : list (T3 A)) :
  Forall (fun u => wf3 u /\ d0 u = n0 /\ d2 u = n2) ts ->
  Forall (fun m => length m = list_sum (map d1 ts) /\
                   Forall (fun r => length r = n2) m) (cat1_data n0 ts).
Proof.
  induction 1 as [|u ts [[Hl Hrows] [H0 H2]] _ IH]; cbn.
  - apply Forall_forall; intros m Hm; apply repeat_spec in Hm; subst m.
    split; [reflexivity|constructor].
  - apply Forall_forall; intros x Hx.
    fold (cat1_data n0 ts) in Hx.
    destruct (in_zip_with _ _ _ _ Hx) as (a & b & Ha & Hb & ->).
    rewrite Forall_forall in Hrows, IH.
    destruct (Hrows a Ha) as [La Ra]; destruct (IH b Hb) as [Lb Rb].
    split.
    + rewrite length_app, La, Lb; reflexivity.
    + apply Forall_app; split; [|exact Rb].
      eapply Forall_impl; [|exact Ra]; intros r Hr; cbn in Hr; congruence.
Qed.

Lemma cat1_ok {A : Type} (ts : list (T3 A)) (n0 n2 : nat) :
  ts <> [] ->
  Forall (fun u => d0 u = n0 /\ d2 u = n2) ts ->
  cat1 ts = Ok (mkT3 n0 (list_sum (map d1 ts)) n2 (cat1_data n0 ts)).
Proof.
  intros Hne Hts; destruct ts as [|t0 ts']; [contradiction|].
  pose proof Hts as Hall; rewrite Forall_forall in Hall.
  destruct (Hall t0 (or_introl eq_refl)) as (H0 & H2).
  unfold cat1; rewrite H0, H2.
  replace (forallb _ _) with true; [reflexivity|].
  symmetry; apply forallb_forall; intros u Hu; destruct (Hall u Hu) as (Hu0 & Hu2).
  rewrite Hu0, Hu2, !Nat.eqb_refl; reflexivity.
Qed.

(** X8: [stack_states] of an empty list fails ([torch.cat] of nothing);
    on a non-empty list whose hidden, resp. cell, components agree outside
    the batch axis it succeeds, each result's batch size is the sum of the
    entries' batch sizes, and well-formed entries give a well-formed
    result. *)
Theorem stack_states_sizes {A : Type} :
  stack_states (@nil (state A)) = Err EmptyCat /\
  (forall (L : list (state A)) (h0 h2 c0 c2 : nat),
     L <> [] ->
     Forall (fun s => d0 (fst s) = h0 /\ d2 (fst s) = h2 /\
                      d0 (snd s) = c0 /\ d2 (snd s) = c2) L ->
     exists H C,
       stack_states L = Ok (H, C) /\
       d0 H = h0 /\ d1 H = list_sum (map (fun s => d1 (fst s)) L) /\ d2 H = h2 /\
       d0 C = c0 /\ d1 C = list_sum (map (fun s => d1 (snd s)) L) /\ d2 C = c2 /\
       (Forall (fun s => wf3 (fst s) /\ wf3 (snd s)) L -> wf3 H /\ wf3 C)).
Proof.
  split; [reflexivity|].
  intros L h0 h2 c0 c2 Hne HL.
  assert (Hne' : forall (T : Type) (f : T3 A * T3 A -> T), map f L <> []).
  { intros T f E; apply Hne; destruct L; [reflexivity|discriminate]. }
  rewrite Forall_forall in HL.
  assert (Hh : Forall (fun u => d0 u = h0 /\ d2 u = h2) (map fst L)).
  { apply Forall_forall; intros u Hu; apply in_map_iff in Hu as (x & <- & Hx).
    destruct (HL x Hx) as (? & ? & _); split; assumption. }
  assert (Hc : Forall (fun u => d0 u = c0 /\ d2 u = c2) (map snd L)).
  { apply Forall_forall; intros u Hu; apply in_map_iff in Hu as (x & <- & Hx).
    destruct (HL x Hx) as (_ & _ & ? & ?); split; assumption. }
  unfold stack_states; rewrite (cat1_ok _ h0 h2 (Hne' _ fst) Hh).
  rewrite (cat1_ok _ c0 c2 (Hne' _ snd) Hc); cbn.
  eexists; eexists; split; [reflexivity|].
  cbn [d0 d1 d2]; rewrite !map_map.
  do 6 (split; [reflexivity|]).
  intros HW; rewrite Forall_forall in HW.
  split; split; cbn [e3 d0 d1 d2].
  - rewrite length_cat1_data; [reflexivity|].
    apply Forall_forall; intros u Hu; apply in_map_iff in Hu as (x & <- & Hx).
    destruct (HW x Hx) as [[Hl _] _].
    destruct (HL x Hx) as (? & _); congruence.
  - rewrite <- (map_map fst d1).
    apply cat1_data_rows; apply Forall_forall; intros u Hu.
    apply in_map_iff in Hu as (x & <- & Hx).
    destruct (HW x Hx) as [? _].
    destruct (HL x Hx) as (? & ? & _); split; [assumption|split; assumption].
  - rewrite length_cat1_data; [reflexivity|].
    apply Forall_forall; intros u Hu; apply in_map_iff in Hu as (x & <- & Hx).
    destruct (HW x Hx) as [_ [Hl _]].
    destruct (HL x Hx) as (_ & _ & ? & _); congruence.
  - rewrite <- (map_map snd d1).
    apply cat1_data_rows; apply Forall_forall; intros u Hu.
    apply in_map_iff in Hu as (x & <- & Hx).
    destruct (HW x Hx) as [_ ?].
    destruct (HL x Hx) as (_ & _ & ? & ?); split; [assumption|split; assumption].
Qed.

(** X9: every entry of [unstack_states (h, c)] has batch size 1 and the
    other sizes of [h], resp. [c]; well-formed inputs give well-formed
    entries. *)
Theorem unstack_states_entry_sizes {A : Type} (h c : T3 A) :
  Forall (fun e => d0 (fst e) = d0 h /\ d1 (fst e) = 1 /\ d2 (fst e) = d2 h /\
                   d0 (snd e) = d0 c /\ d1 (snd e) = 1 /\ d2 (snd e) = d2 c)
         (unstack_states (h, c)) /\
  (wf3 h -> wf3 c -> Forall (fun e => wf3 (fst e) /\ wf3 (snd e)) (unstack_states (h, c))).
Proof.
  assert (Hslice : forall (t : T3 A) u, In u (unbind1 t) ->
            d0 (unsqueeze1 u) = d0 t /\ d1 (unsqueeze1 u) = 1 /\
            d2 (unsqueeze1 u) = d2 t /\ (wf3 t -> wf3 (unsqueeze1 u))).
  { intros t u Hu; unfold unbind1 in Hu; apply in_map_iff in Hu as (j & <- & Hj).
    apply in_seq in Hj; do 3 (split; [reflexivity|]).
    intros [Hl Hrows]; unfold wf3, unsqueeze1; cbn [e3 d0 d1 d2 e2 r0 r1].
    split; [rewrite !length_map; exact Hl|].
    apply Forall_forall; intros x Hx; rewrite map_map in Hx.
    apply in_map_iff in Hx as (m & <- & Hm).
    rewrite Forall_forall in Hrows; destruct (Hrows m Hm) as [Lm Rm].
    split; [reflexivity|]; constructor; [|constructor].
    rewrite Forall_forall in Rm; apply Rm, nth_In; lia. }
  split.
  - apply Forall_forall; intros e He; unfold unstack_states in He.
    apply in_map_iff in He as ([x y] & <- & Hxy); cbn.
    destruct (Hslice h x (in_combine_l _ _ _ _ Hxy)) as (? & ? & ? & _).
    destruct (Hslice c y (in_combine_r _ _ _ _ Hxy)) as (? & ? & ? & _).
    repeat split; assumption.
  - intros Hh Hc; apply Forall_forall; intros e He; unfold unstack_states in He.
    apply in_map_iff in He as ([x y] & <- & Hxy); cbn.
    destruct (Hslice h x (in_combine_l _ _ _ _ Hxy)) as (_ & _ & _ & Hx).
    destruct (Hslice c y (in_combine_r _ _ _ _ Hxy)) as (_ & _ & _ & Hy).
    split; [apply Hx, Hh|apply Hy, Hc].
Qed.

(** ** Properties of the streaming client *)

Lemma length_py_slice_chunk {A : Type} (wave : list A) (start : nat) :
  length (Client.py_slice wave start
            (start + Nat.min Client.frame_size (length wave - start)))
  = Nat.min Client.frame_size (length wave - start).
Proof.
  unfold Client.py_slice; rewrite length_firstn, length_skipn; lia.
Qed.

Lemma firstn_min_length {A : Type} (n : nat) (l : list A) :
  firstn (Nat.min n (length l)) l = firstn n l.
Proof.
  destruct (Nat.le_ge_cases n (length l)) as [Hle|Hge].
  - rewrite Nat.min_l by exact Hle; reflexivity.
  - rewrite Nat.min_r by exact Hge; rewrite firstn_all, firstn_all2 by exact Hge.
    reflexivity.
Qed.

Lemma send_loop_concat {A : Type} (fuel start : nat) (wave : list A) :
  length wave <= start + fuel * Client.frame_size ->
  concat (Client.send_loop fuel start wave) = skipn start wave.
Proof.
  revert start; induction fuel as [|fuel IH]; intros start Hfuel; cbn [Client.send_loop].
  - rewrite skipn_all2 by lia; reflexivity.
  - destruct (Nat.ltb_spec start (length wave)) as [Hlt|Hge].
    + cbn [concat]; rewrite IH by (cbn [Nat.mul] in Hfuel; lia).
      unfold Client.py_slice.
      replace (start + Nat.min Client.frame_size (length wave - start) - start)
        with (Nat.min Client.frame_size (length (skipn start wave)))
        by (rewrite length_skipn; lia).
      rewrite firstn_min_length, Nat.add_comm, <- skipn_skipn.
      apply firstn_skipn.
    + rewrite skipn_all2 by lia; reflexivity.
Qed.

Lemma send_loop_length {A : Type} (fuel start : nat) (wave : list A) :
  length wave <= start + fuel * Client.frame_size ->
  length (Client.send_loop fuel start wave)
  = (length wave - start + (Client.frame_size - 1)) / Client.frame_size.
Proof.
  unfold Client.frame_size.
  revert start; induction fuel as [|fuel IH]; intros start Hfuel; cbn [Client.send_loop].
  - replace (length wave - start) with 0 by lia; reflexivity.
  - destruct (Nat.ltb_spec start (length wave)) as [Hlt|Hge].
    + cbn [length]; unfold Client.frame_size.
      rewrite IH by (cbn [Nat.mul] in Hfuel; lia).
      destruct (Nat.le_gt_cases (start + 4096) (length wave)) as [Hbig|Hsmall].
      * replace (length wave - start + (4096 - 1))
          with (1 * 4096 + (length wave - (start + 4096) + (4096 - 1))) by lia.
        rewrite Nat.div_add_l by discriminate; reflexivity.
      * replace (length wave - (start + 4096)) with 0 by lia.
        replace (S ((0 + (4096 - 1)) / 4096)) with 1 by reflexivity.
        apply Nat.div_unique with (length wave - start - 1); lia.
    + replace (length wave - start) with 0 by lia; reflexivity.
Qed.

Lemma send_loop_nonempty {A : Type} (fuel start : nat) (wave : list A) :
  Client.send_loop fuel start wave <> [] -> start < length wave.
Proof.
  destruct fuel as [|fuel]; cbn [Client.send_loop]; [congruence|].
  destruct (Nat.ltb_spec start (length wave)); [auto|congruence].
Qed.

Lemma send_loop_sizes {A : Type} (fuel start : nat) (wave : list A) :
  Forall (fun c => 0 < length c <= Client.frame_size) (Client.send_loop fuel start wave) /\
  Forall (fun c => length c = Client.frame_size)
         (removelast (Client.send_loop fuel start wave)).
Proof.
  revert start; induction fuel as [|fuel IH]; intros start; cbn [Client.send_loop].
  - split; constructor.
  - destruct (Nat.ltb_spec start (length wave)) as [Hlt|Hge]; [|split; constructor].
    destruct (IH (start + Client.frame_size)) as [IH1 IH2].
    split.
    + constructor; [|exact IH1].
      rewrite length_py_slice_chunk; unfold Client.frame_size; lia.
    + destruct (Client.send_loop fuel (start + Client.frame_size) wave) as [|c rest] eqn:E.
      * constructor.
      * cbn [removelast]; constructor; [|exact IH2].
        assert (Hnext : start + Client.frame_size < length wave)
          by (apply (send_loop_nonempty fuel); rewrite E; discriminate).
        rewrite length_py_slice_chunk; lia.
Qed.

(** X10: the audio messages [run] sends for one file are the waveform cut
    in order: their concatenation is the whole waveform, and there are
    ceil(numel / 4096) of them. *)
Theorem wave_chunks_concat {A : Type} (wave : list A) :
  concat (Client.wave_chunks wave) = wave /\
  length (Client.wave_chunks wave)
  = (length wave + (Client.frame_size - 1)) / Client.frame_size.
Proof.
  unfold Client.wave_chunks.
  assert (Hf : length wave <= 0 + length wave * Client.frame_size)
    by (unfold Client.frame_size; lia).
  split.
  - rewrite send_loop_concat by exact Hf; reflexivity.
  - rewrite send_loop_length by exact Hf; rewrite Nat.sub_0_r; reflexivity.
Qed.

(** X11: every audio message [run] sends is non-empty and holds at most
    [frame_size] = 4096 samples, and every message but the last holds
    exactly 4096. *)
Theorem wave_chunks_sizes {A : Type} (wave : list A) :
  Forall (fun c => 0 < length c <= Client.frame_size) (Client.wave_chunks wave) /\
  Forall (fun c => length c = Client.frame_size) (removelast (Client.wave_chunks wave)).
Proof.
  apply send_loop_sizes.
Qed.

Lemma last_default_irrelevant {T : Type} (l : list T) (d d' : T) :
  l <> [] -> last l d = last l d'.
Proof.
  induction l as [|x [|y l] IH]; intros Hne; [congruence|reflexivity|].
  apply IH; discriminate.
Qed.

Lemma receive_loop_last (partial_result : String.string) (pre post : list String.string)
  (close : Client.close_kind) :
  ~ In "Done"%string pre ->
  Client.receive_loop partial_result (pre ++ "Done"%string :: post) close
  = Client.Returned (last pre partial_result) /\
  Client.receive_loop partial_result pre Client.ClosedOK
  = Client.Returned (last pre partial_result) /\
  Client.receive_loop partial_result pre Client.ClosedError
  = Client.RaisesConnectionClosedError.
Proof.
  revert partial_result; induction pre as [|m rest IH]; intros p Hin.
  - split; [|split]; reflexivity.
  - assert (Hm : String.eqb m "Done"%string = false).
    { apply String.eqb_neq; intros ->; apply Hin; left; reflexivity. }
    assert (Hrest : ~ In "Done"%string rest) by (intros H; apply Hin; right; exact H).
    destruct (IH m Hrest) as (IH1 & IH2 & IH3).
    cbn [app Client.receive_loop]; rewrite Hm, IH1, IH2, IH3.
    destruct rest as [|r rest']; [split; [|split]; reflexivity|].
    assert (E : last (r :: rest') m = last (r :: rest') p)
      by (apply last_default_irrelevant; discriminate).
    rewrite E; split; [|split]; reflexivity.
Qed.

(** X12: [receive_results] returns the last message received before the
    first ["Done"], or [""] when there is none, however the connection
    closes afterwards.  When the connection closes before any ["Done"], it
    returns the last message received if the close is normal, and lets
    [ConnectionClosedError] escape otherwise. *)
Theorem receive_results_last (pre post : list String.string) (close : Client.close_kind) :
  ~ In "Done"%string pre ->
  Client.receive_results (pre ++ "Done"%string :: post) close
  = Client.Returned (last pre ""%string) /\
  Client.receive_results pre Client.ClosedOK = Client.Returned (last pre ""%string) /\
  Client.receive_results pre Client.ClosedError = Client.RaisesConnectionClosedError.
Proof.
  apply receive_loop_last.
Qed.

Lemma retry_loop_503 (known : nat -> bool) (fuel count : nat)
  (outcome : nat -> option Client.client_exn) :
  count < Client.max_retry_count ->
  known Client.SERVICE_UNAVAILABLE = true ->
  outcome count = Some (Client.InvalidStatusCode Client.SERVICE_UNAVAILABLE) ->
  Client.retry_loop known (S fuel) count outcome
  = Client.retry_loop known fuel (S count) outcome.
Proof.
  intros Hlt Hk Ho; cbn [Client.retry_loop].
  apply Nat.ltb_lt in Hlt; rewrite Hlt.
  replace (count + 1 - 1) with count by lia; rewrite Ho, Hk, Nat.eqb_refl.
  cbn [negb]; rewrite Nat.add_1_r; reflexivity.
Qed.

Lemma retry_loop_prefix (known : nat -> bool) (outcome : nat -> option Client.client_exn)
  (j fuel count : nat) :
  known Client.SERVICE_UNAVAILABLE = true ->
  count + j <= Client.max_retry_count ->
  (forall i, count <= i < count + j ->
     outcome i = Some (Client.InvalidStatusCode Client.SERVICE_UNAVAILABLE)) ->
  Client.retry_loop known (j + fuel) count outcome
  = Client.retry_loop known fuel (count + j) outcome.
Proof.
  intros Hk; revert count; induction j as [|j IH]; intros count Hle Ho.
  - rewrite Nat.add_0_r; reflexivity.
  - cbn [Nat.add]; rewrite retry_loop_503 by (first [assumption | apply Ho; lia | lia]).
    rewrite IH by (first [assumption | lia | intros i Hi; apply Ho; lia]).
    f_equal; lia.
Qed.

(** X13: when all [max_retry_count] = 5 attempts are refused with status
    503, [main] gives up after the fifth without raising anything. *)
Theorem main_gives_up_after_5 (known : nat -> bool) (outcome : nat -> option Client.client_exn) :
  known Client.SERVICE_UNAVAILABLE = true ->
  (forall i, i < Client.max_retry_count ->
     outcome i = Some (Client.InvalidStatusCode Client.SERVICE_UNAVAILABLE)) ->
  Client.main_loop known outcome = (None, Client.max_retry_count).
Proof.
  intros Hk Ho; unfold Client.main_loop.
  rewrite <- (Nat.add_0_r Client.max_retry_count) at 1.
  rewrite retry_loop_prefix by (auto; intros i Hi; apply Ho; lia).
  reflexivity.
Qed.

(** X14: when the attempts before attempt [k < 5] were refused with
    status 503 and attempt [k] ends otherwise, [main] stops after [k + 1]
    calls of [run]: a return ends it normally, a status [http.client]
    does not know raises [KeyError], another status re-raises
    [InvalidStatusCode] and any other exception is re-raised. *)
Theorem main_stops_at_first_non_503 (known : nat -> bool)
  (outcome : nat -> option Client.client_exn) (k : nat) :
  known Client.SERVICE_UNAVAILABLE = true ->
  k < Client.max_retry_count ->
  (forall i, i < k ->
     outcome i = Some (Client.InvalidStatusCode Client.SERVICE_UNAVAILABLE)) ->
  outcome k <> Some (Client.InvalidStatusCode Client.SERVICE_UNAVAILABLE) ->
  Client.main_loop known outcome
  = (match outcome k with
     | None => None
     | Some (Client.InvalidStatusCode c) =>
         if known c then Some (Client.InvalidStatusCode c) else Some Client.KeyError
     | Some e => Some e
     end, S k).
Proof.
  intros Hk Hlt Ho Hne; unfold Client.main_loop.
  replace Client.max_retry_count
    with (k + S (Client.max_retry_count - S k)) at 1 by lia.
  rewrite retry_loop_prefix by (first [assumption | lia | intros i Hi; apply Ho; lia]).
  cbn [Nat.add Client.retry_loop].
  replace (k <? Client.max_retry_count) with true by (symmetry; apply Nat.ltb_lt; exact Hlt).
  replace (k + 1 - 1) with k by lia; rewrite Nat.add_1_r.
  destruct (outcome k) as [[c| |]|]; try reflexivity.
  destruct (known c) eqn:Ec; cbn [negb]; [|reflexivity].
  destruct (Nat.eqb_spec c Client.SERVICE_UNAVAILABLE) as [->|]; [congruence|reflexivity].
Qed.

Lemma retry_loop_count_bound (known : nat -> bool) (outcome : nat -> option Client.client_exn)
  (fuel count : nat) :
  count <= Client.max_retry_count ->
  count <= snd (Client.retry_loop known fuel count outcome) <= Client.max_retry_count.
Proof.
  revert count; induction fuel as [|fuel IH]; intros count Hle; cbn [Client.retry_loop].
  - cbn; lia.
  - destruct (Nat.ltb_spec count Client.max_retry_count) as [Hlt|Hge]; [|cbn; lia].
    destruct (outcome (count + 1 - 1)) as [[c| |]|]; cbn [snd]; try lia.
    destruct (negb (known c)); [cbn; lia|].
    destruct (negb (c =? Client.SERVICE_UNAVAILABLE)); [cbn; lia|].
    specialize (IH (count + 1) ltac:(lia)); lia.
Qed.

Lemma retry_loop_progress (known : nat -> bool) (outcome : nat -> option Client.client_exn)
  (fuel count : nat) :
  count < Client.max_retry_count ->
  count < snd (Client.retry_loop known (S fuel) count outcome).
Proof.
  intros Hlt; cbn [Client.retry_loop].
  rewrite (proj2 (Nat.ltb_lt _ _) Hlt).
  destruct (outcome (count + 1 - 1)) as [[c| |]|]; cbn [snd]; try lia.
  destruct (negb (known c)); cbn [snd]; [lia|].
  destruct (negb (c =? Client.SERVICE_UNAVAILABLE)); cbn [snd]; [lia|].
  pose proof (retry_loop_count_bound known outcome fuel (count + 1) ltac:(lia)); lia.
Qed.

(** X15: [main] calls [run] at least once and at most
    [max_retry_count] = 5 times, whatever the attempts do. *)
Theorem main_attempts_bounded (known : nat -> bool) (outcome : nat -> option Client.client_exn) :
  1 <= snd (Client.main_loop known outcome) <= Client.max_retry_count.
Proof.
  unfold Client.main_loop.
  pose proof (retry_loop_count_bound known outcome Client.max_retry_count 0 (Nat.le_0_l _)).
  pose proof (retry_loop_progress known outcome 4 0
                ltac:(unfold Client.max_retry_count; lia)).
  change Client.max_retry_count with 5 in *; lia.
Qed.

(** ** Runs on concrete inputs *)

Lemma stack_unstack_roundtrip_witness :
  let h := mkT3 1 2 1 [[[1%Z]; [2%Z]]] in
  let c := mkT3 1 2 2 [[[3%Z; 4%Z]; [5%Z; 6%Z]]] in
  (wf3 h /\ wf3 c /\ d1 h = d1 c /\ 1 <= d1 h) /\
  stack_states (unstack_states (h, c)) = Ok (h, c) /\
  rmap unstack_states (stack_states (unstack_states (h, c))) = Ok (unstack_states (h, c)).
Proof.
  intros h c.
  assert (Hh : wf3 h) by (split; [reflexivity|repeat constructor]).
  assert (Hc : wf3 c) by (split; [reflexivity|repeat constructor]).
  split; [split; [exact Hh|split; [exact Hc|split; [reflexivity|cbn; lia]]]|split].
  - apply (proj1 (@stack_unstack_roundtrip Z) h c Hh Hc); [reflexivity|cbn; lia].
  - apply (proj2 (@stack_unstack_roundtrip Z) _ 1 1 1 2); [discriminate|].
    repeat constructor.
Defined.

Lemma stack_states_shape_error_witness :
  let L := [(mkT3 1 1 2 [[[1%Z; 2%Z]]], mkT3 1 1 1 [[[0%Z]]]);
            (mkT3 1 1 3 [[[1%Z; 2%Z; 3%Z]]], mkT3 1 1 1 [[[0%Z]]])] in
  let h := mkT3 1 2 1 [[[1%Z]; [2%Z]]] in
  let c := mkT3 1 3 1 [[[1%Z]; [2%Z]; [3%Z]]] in
  stack_states L = Err ShapeError /\
  1 < Nat.min (d1 h) (d1 c) /\
  nth_error (unstack_states (h, c)) 1 = Some (mkT3 1 1 1 [[[2%Z]]], mkT3 1 1 1 [[[2%Z]]]).
Proof.
  intros L h c; split; [|split].
  2: cbn; lia.
  2: exact (proj2 (proj2 (@stack_states_shape_error Z) h c) 1 ltac:(cbn; lia)).
  apply (proj1 (@stack_states_shape_error Z) L (nth 0 L (mkT3 0 0 0 [], mkT3 0 0 0 []))
           (nth 1 L (mkT3 0 0 0 [], mkT3 0 0 0 []))).
  - cbn; left; reflexivity.
  - cbn; right; left; reflexivity.
  - right; left; cbn; discriminate.
Defined.

Lemma endpoint_detected_true_resets_witness :
  let s := mkStream Z (list Z) (_create_streaming_feature_extractor (list Z) [])
             [] 0 30 (mkT3 1 1 1 [[[0%Z]]], mkT3 1 1 1 [[[0%Z]]])
             50 2 4 (-23)%Z 2 120 50 in
  fst (endpoint_detected _ _ _ toy_endpoint_detected 100 s) = Ok true /\
  segment _ _ (snd (endpoint_detected _ _ _ toy_endpoint_detected 100 s)) = 3.
Proof.
  intros s.
  assert (H : fst (endpoint_detected _ _ _ toy_endpoint_detected 100 s) = Ok true)
    by reflexivity.
  split; [exact H|].
  destruct (endpoint_detected_true_resets _ _ _ toy_endpoint_detected 100 s H)
    as (_ & _ & _ & Hseg & _).
  exact Hseg.
Defined.

Lemma endpoint_detected_false_noop_witness :
  let s := mkStream Z (list Z) (_create_streaming_feature_extractor (list Z) [])
             [] 0 30 (mkT3 1 1 1 [[[0%Z]]], mkT3 1 1 1 [[[0%Z]]])
             50 2 4 (-23)%Z 2 120 50 in
  fst (endpoint_detected _ _ _ toy_endpoint_detected 200 s) = Ok false /\
  snd (endpoint_detected _ _ _ toy_endpoint_detected 200 s) = s.
Proof.
  intros s.
  assert (H : fst (endpoint_detected _ _ _ toy_endpoint_detected 200 s) = Ok false)
    by reflexivity.
  split; [exact H|].
  exact (endpoint_detected_false_noop _ _ _ toy_endpoint_detected 200 s H).
Defined.

Lemma add_tail_paddings_appends_witness :
  let s := new_stream Z (list Z) [] (-23)%Z 2 4
             (mkT3 1 1 1 [[[0%Z]]], mkT3 1 1 1 [[[0%Z]]]) in
  (0 <= 20)%Z /\ log_eps _ _ s = (-23)%Z /\
  fst (add_tail_paddings _ _ 20 s) = Ok tt.
Proof.
  intros s.
  assert (H0 : (0 <= 20)%Z) by lia.
  assert (H1 : log_eps _ _ s = (-23)%Z) by reflexivity.
  split; [exact H0|split; [exact H1|]].
  exact (proj1 (add_tail_paddings_appends _ _ (-23)%Z 20 s H0 H1)).
Defined.

Lemma add_tail_paddings_nonpos_witness :
  let s := new_stream Z (list Z) [] (-23)%Z 2 4
             (mkT3 1 1 1 [[[0%Z]]], mkT3 1 1 1 [[[0%Z]]]) in
  (-3 <= 0)%Z /\ add_tail_paddings _ _ (-3) s = (Ok tt, s).
Proof.
  intros s.
  assert (H : (-3 <= 0)%Z) by lia.
  split; [exact H|exact (add_tail_paddings_nonpos _ _ (-3) s H)].
Defined.

Lemma accept_waveform_rate_mismatch_witness :
  let s := new_stream Z (list Z) [] (-23)%Z 2 4
             (mkT3 1 1 1 [[[0%Z]]], mkT3 1 1 1 [[[0%Z]]]) in
  accept_waveform Z (list Z) (list Z) toy_fbank_accept (@length Z)
    toy_fbank_get_frame 8000 [1%Z; 2%Z] s = (Err ConfigError, s).
Proof.
  intros s.
  apply accept_waveform_rate_mismatch; [reflexivity|].
  intros H; apply Qeq_bool_iff in H; discriminate H.
Defined.

Lemma session_fetch_monotone_witness :
  let s0 := new_stream Z (list Z) [] (-23)%Z 2 4
              (mkT3 1 1 1 [[[0%Z]]], mkT3 1 1 1 [[[0%Z]]]) in
  Sorted le
    (map (num_fetched_frames Z (list Z))
       (s0 :: run_session Z (list Z) (list Z) toy_fbank_accept
                toy_fbank_input_finished (@length Z) toy_fbank_get_frame
                [(16000%Q, [1%Z; 2%Z]); (16000%Q, [3%Z])] s0)).
Proof.
  intros s0.
  refine (proj1 (session_fetch_monotone Z (list Z) (list Z) [] toy_fbank_accept
                   toy_fbank_input_finished (@length Z) toy_fbank_get_frame (-23)%Z
                   _ _ _ _ 2 4 _ _)).
  - intros x w; unfold toy_fbank_accept; rewrite length_app; lia.
  - intros x w i Hi; unfold toy_fbank_get_frame, toy_fbank_accept.
    rewrite app_nth1 by exact Hi; reflexivity.
  - intros x; reflexivity.
  - intros x i Hi; reflexivity.
Defined.

Lemma accept_waveform_fetches_witness :
  let s := new_stream Z (list Z) [] (-23)%Z 2 4
             (mkT3 1 1 1 [[[0%Z]]], mkT3 1 1 1 [[[0%Z]]]) in
  (16000 == samp_freq (frame_opts (opts _ (feature_extractor _ _ s))))%Q /\
  map (@e2 Z) (features _ _ (snd (accept_waveform Z (list Z) (list Z) toy_fbank_accept
                                  (@length Z) toy_fbank_get_frame 16000 [1%Z; 2%Z] s)))
  = [[[1%Z]]; [[2%Z]]].
Proof.
  intros s.
  assert (H : (16000 == samp_freq (frame_opts (opts _ (feature_extractor _ _ s))))%Q)
    by (apply Qeq_bool_iff; reflexivity).
  split; [exact H|].
  rewrite (accept_waveform_fetches Z (list Z) (list Z) toy_fbank_accept (@length Z)
             toy_fbank_get_frame 16000 [1%Z; 2%Z] s H).
  reflexivity.
Defined.

Lemma add_tail_paddings_compose_witness :
  let s := new_stream Z (list Z) [] (-23)%Z 2 4
             (mkT3 1 1 1 [[[0%Z]]], mkT3 1 1 1 [[[0%Z]]]) in
  (0 <= 2)%Z /\ (0 <= 3)%Z /\
  bind Z (list Z) (add_tail_paddings Z (list Z) 2) (fun _ => add_tail_paddings Z (list Z) 3) s
  = add_tail_paddings Z (list Z) 5 s.
Proof.
  intros s.
  assert (H2 : (0 <= 2)%Z) by lia.
  assert (H3 : (0 <= 3)%Z) by lia.
  split; [exact H2|split; [exact H3|]].
  exact (add_tail_paddings_compose Z (list Z) 2 3 H2 H3 s).
Defined.

Lemma run_ops_buffer_append_only_witness :
  let s := new_stream Z (list Z) [] (-23)%Z 2 4
             (mkT3 1 1 1 [[[0%Z]]], mkT3 1 1 1 [[[0%Z]]]) in
  let ops := [@OpAcceptWaveform (list Z) nat 16000%Q [1%Z; 2%Z];
              @OpAddTailPaddings (list Z) nat 3%Z;
              @OpEndpointDetected (list Z) nat 100;
              @OpInputFinished (list Z) nat] in
  let s' := fst (run_ops Z (list Z) (list Z) toy_fbank_accept toy_fbank_input_finished
                   (@length Z) toy_fbank_get_frame nat toy_endpoint_detected ops s) in
  num_fetched_frames _ _ s <= length (features _ _ s) /\
  num_fetched_frames _ _ s' <= length (features _ _ s').
Proof.
  intros s ops s'.
  assert (H : num_fetched_frames _ _ s <= length (features _ _ s)) by (cbv; lia).
  split; [exact H|].
  exact (proj2 (proj2 (run_ops_buffer_append_only Z (list Z) (list Z) toy_fbank_accept
                         toy_fbank_input_finished (@length Z) toy_fbank_get_frame nat
                         toy_endpoint_detected ops s)) H).
Defined.

Lemma stack_states_sizes_witness :
  let L := [(mkT3 1 1 2 [[[1%Z; 2%Z]]], mkT3 1 1 1 [[[0%Z]]]);
            (mkT3 1 2 2 [[[3%Z; 4%Z]; [5%Z; 6%Z]]], mkT3 1 2 1 [[[7%Z]; [8%Z]]])] in
  exists H C, stack_states L = Ok (H, C) /\ d1 H = 3 /\ d1 C = 3 /\ wf3 H /\ wf3 C.
Proof.
  intros L.
  assert (Hne : L <> []) by discriminate.
  assert (HL : Forall (fun s => d0 (fst s) = 1 /\ d2 (fst s) = 2 /\
                                d0 (snd s) = 1 /\ d2 (snd s) = 1) L)
    by (repeat constructor).
  destruct (proj2 (@stack_states_sizes Z) L 1 2 1 1 Hne HL)
    as (H & C & E & _ & E1 & _ & _ & E2 & _ & W).
  exists H, C; split; [exact E|split; [exact E1|split; [exact E2|]]].
  apply W; repeat constructor.
Defined.

Lemma unstack_states_entry_sizes_witness :
  let h := mkT3 1 2 1 [[[1%Z]; [2%Z]]] in
  let c := mkT3 1 2 2 [[[3%Z; 4%Z]; [5%Z; 6%Z]]] in
  wf3 h /\ wf3 c /\
  Forall (fun e => wf3 (fst e) /\ wf3 (snd e)) (unstack_states (h, c)).
Proof.
  intros h c.
  assert (Hh : wf3 h) by (split; [reflexivity|repeat constructor]).
  assert (Hc : wf3 c) by (split; [reflexivity|repeat constructor]).
  split; [exact Hh|split; [exact Hc|]].
  exact (proj2 (@unstack_states_entry_sizes Z h c) Hh Hc).
Defined.

Lemma receive_results_last_witness :
  ~ In "Done"%string ["hello"%string; "hello world"%string] /\
  Client.receive_results (["hello"%string; "hello world"%string] ++
                          "Done"%string :: ["late"%string]) Client.ClosedError
  = Client.Returned "hello world"%string /\
  Client.receive_results ["hello"%string; "hello world"%string] Client.ClosedError
  = Client.RaisesConnectionClosedError.
Proof.
  assert (H : ~ In "Done"%string ["hello"%string; "hello world"%string])
    by (cbn; intros [E|[E|[]]]; discriminate E).
  split; [exact H|].
  destruct (receive_results_last ["hello"%string; "hello world"%string]
              ["late"%string] Client.ClosedError H) as (E1 & _ & E3).
  split; [exact E1|exact E3].
Defined.

Lemma main_gives_up_after_5_witness :
  let known := fun c => (c =? 503) || (c =? 404) in
  let outcome := fun _ : nat => Some (Client.InvalidStatusCode 503) in
  known Client.SERVICE_UNAVAILABLE = true /\
  Client.main_loop known outcome = (None, 5).
Proof.
  intros known outcome.
  assert (Hk : known Client.SERVICE_UNAVAILABLE = true) by reflexivity.
  split; [exact Hk|].
  exact (main_gives_up_after_5 known outcome Hk (fun i _ => eq_refl)).
Defined.

Lemma main_stops_at_first_non_503_witness :
  let known := fun c => (c =? 503) || (c =? 404) in
  let outcome := fun i : nat =>
    if i <? 2 then Some (Client.InvalidStatusCode 503)
    else Some (Client.InvalidStatusCode 404) in
  known Client.SERVICE_UNAVAILABLE = true /\ 2 < Client.max_retry_count /\
  Client.main_loop known outcome = (Some (Client.InvalidStatusCode 404), 3).
Proof.
  intros known outcome.
  assert (Hk : known Client.SERVICE_UNAVAILABLE = true) by reflexivity.
  assert (Hlt : 2 < Client.max_retry_count) by (cbv; lia).
  assert (Ho : forall i, i < 2 ->
             outcome i = Some (Client.InvalidStatusCode Client.SERVICE_UNAVAILABLE)).
  { intros i Hi; unfold outcome; apply Nat.ltb_lt in Hi; rewrite Hi; reflexivity. }
  assert (Hne : outcome 2 <> Some (Client.InvalidStatusCode Client.SERVICE_UNAVAILABLE))
    by (cbv; discriminate).
  split; [exact Hk|split; [exact Hlt|]].
  rewrite (main_stops_at_first_non_503 known outcome 2 Hk Hlt Ho Hne).
  reflexivity.
Defined.
